(** * Ally speech service: session orchestration layer

    A shallow embedding of [speech-service/speech_service.py] (class
    [SpeechService]) and of [speech-service/minimal_service.py] (class
    [MinimalSpeechService]), with the properties of the specification
    stated and settled against it.

    Conventions of the embedding:
    - a Python [str] is a list of Unicode code points ([char := N]), so that
      [len] is [length] and [\s], [str.strip] and [.] see the characters the
      interpreter sees;
    - a decoded JSON value is a [json] tree; [None] is [JNull];
    - a handler is a function on the service record; what it hands to
      [websocket.send] is appended to the [outbox] of the record;
    - a coroutine runs from one [await] to the next in one step; the event
      loop picks which task to resume (the label of the step). *)

From Stdlib Require Import NArith ZArith Ascii List Bool Lia DecimalString.
From stdpp Require Import base list strings gmap.
Import ListNotations.

Set Default Proof Using "Type".

(** ** Python strings *)

Module Py.

Definition char := N.
Definition str := list char.

(** A literal of the source, character by character. *)
Definition lit (s : string) : str :=
  map N_of_ascii (String.list_ascii_of_string s).

Arguments lit : simpl never.

Definition nl : char := 10%N.

(** [str.isspace] on one character; also the class [\s] of [re] on [str]
    patterns (both are [Py_UNICODE_ISSPACE]). *)
Definition isspace (c : char) : bool :=
  ((9 <=? c) && (c <=? 13) || (28 <=? c) && (c <=? 32)
   || (c =? 133) || (c =? 160) || (c =? 5760)
   || (8192 <=? c) && (c <=? 8202)
   || (c =? 8232) || (c =? 8233) || (c =? 8239) || (c =? 8287)
   || (c =? 12288))%N.

Fixpoint lstrip (s : str) : str :=
  match s with
  | c :: t => if isspace c then lstrip t else s
  | [] => []
  end.

Definition rstrip (s : str) : str := rev (lstrip (rev s)).

(** [s.strip()] *)
Definition strip (s : str) : str := rstrip (lstrip s).

(** [a == b] on two strings. *)
Definition str_eqb (a b : str) : bool := bool_decide (a = b).

End Py.
Export Py.

(** ** The fragment of [re] the service uses

    Every repetition of the source's patterns is over a single character
    class, so [Rep] repeats a class.  Matching is backtracking in Python's
    priority order: a greedy repetition tries one more character before it
    tries the rest of the pattern, a lazy one the other way round. *)

Module Re.

Inductive cls : Type :=
| Lit (c : char)            (* an escaped or plain character *)
| Dot                       (* [.], newline excluded *)
| DotAll                    (* [.] under [re.DOTALL] *)
| Space                     (* [\s] *)
| OneOf (l : list char).    (* [[...]] *)

Definition cls_match (k : cls) (c : char) : bool :=
  match k with
  | Lit d => (c =? d)%N
  | Dot => negb (c =? nl)%N
  | DotAll => true
  | Space => isspace c
  | OneOf l => existsb (N.eqb c) l
  end.

Inductive regex : Type :=
| Eps
| Chr (k : cls)
| Rep (k : cls) (lo : nat) (hi : option nat) (greedy : bool)
| Group (r : regex)         (* the capture group [\1] *)
| LookBehind (k : cls)      (* [(?<=k)] *)
| Cat (r1 r2 : regex).

Definition sequence (l : list regex) : regex := fold_right Cat Eps l.
Definition chars (s : str) : regex :=
  sequence (map (fun c => Chr (Lit c)) s).
Definition star (k : cls) : regex := Rep k 0 None true.
Definition plus (k : cls) : regex := Rep k 1 None true.
Definition lazy_star (k : cls) : regex := Rep k 0 None false.

Definition or_else {A} (a b : option A) : option A :=
  match a with Some _ => a | None => b end.

Fixpoint rep_match {A} (k : cls) (greedy : bool) (lo : nat) (hi : option nat)
    (prev : option char) (s : str)
    (cont : option char -> str -> option A) {struct s} : option A :=
  let stop := match lo with O => cont prev s | S _ => None end in
  let more :=
    match s, hi with
    | _, Some O => None
    | c :: t, _ =>
        if cls_match k c
        then rep_match k greedy (Nat.pred lo) (Nat.pred <$> hi) (Some c) t cont
        else None
    | [], _ => None
    end in
  if greedy then or_else more stop else or_else stop more.

Fixpoint rmatch {A} (r : regex) (prev : option char) (s : str)
    (g : option str)
    (cont : option char -> str -> option str -> option A) : option A :=
  match r with
  | Eps => cont prev s g
  | Chr k =>
      match s with
      | c :: t => if cls_match k c then cont (Some c) t g else None
      | [] => None
      end
  | Rep k lo hi greedy =>
      rep_match k greedy lo hi prev s (fun p t => cont p t g)
  | Group r' =>
      rmatch r' prev s g
        (fun p t _ => cont p t (Some (take (length s - length t) s)))
  | LookBehind k =>
      match prev with
      | Some c => if cls_match k c then cont prev s g else None
      | None => None
      end
  | Cat r1 r2 =>
      rmatch r1 prev s g (fun p t g' => rmatch r2 p t g' cont)
  end.

(** One attempt of the pattern at the current position: the number of
    characters the match covers, and its group 1. *)
Definition match_here (r : regex) (prev : option char) (s : str)
  : option (nat * option str) :=
  rmatch r prev s None
    (fun _ t g => Some (length s - length t, g)).

(** [re.sub(r, repl, s)]: scan left to right, replace each match, copy the
    rest.  [skip] counts the characters of the current match still to be
    dropped. *)
Fixpoint sub_scan (r : regex) (repl : option str -> str)
    (prev : option char) (skip : nat) (s : str) : str :=
  match s with
  | [] =>
      match skip, match_here r prev [] with
      | O, Some (_, g) => repl g
      | _, _ => []
      end
  | c :: t =>
      match skip with
      | S n => sub_scan r repl (Some c) n t
      | O =>
          match match_here r prev s with
          | Some (O, g) => repl g ++ c :: sub_scan r repl (Some c) 0 t
          | Some (S n, g) => repl g ++ sub_scan r repl (Some c) n t
          | None => c :: sub_scan r repl (Some c) 0 t
          end
      end
  end.

Definition sub (r : regex) (repl : option str -> str) (s : str) : str :=
  sub_scan r repl None 0 s.

(** The two replacement templates of the source: [''] and [r'\1']. *)
Definition repl_empty : option str -> str := fun _ => [].
Definition repl_group1 : option str -> str := fun g => default [] g.

(** [re.split(r, s)] for a pattern without groups whose matches are never
    empty (both split patterns of the source require one [\s]): the pieces
    between the matches.  [cur] is the piece being read. *)
Fixpoint split_scan (r : regex) (prev : option char) (skip : nat)
    (cur : str) (s : str) : list str :=
  match s with
  | [] => [cur]
  | c :: t =>
      match skip with
      | S n => split_scan r (Some c) n cur t
      | O =>
          match match_here r prev s with
          | Some (S n, _) => cur :: split_scan r (Some c) n [] t
          | _ => split_scan r (Some c) 0 (cur ++ [c]) t
          end
      end
  end.

Definition split (r : regex) (s : str) : list str :=
  split_scan r None 0 [] s.

End Re.

(** ** Sentence decomposition: [SpeechService._split_into_sentences] *)

Module Sentences.
Import Re.

Definition thinking_mark : char := 128173%N.   (* U+1F4AD *)

(** The two framing patterns, compiled with [re.DOTALL]: the thought mark
    U+1F4AD, [\s*], the starred title, [\s*], two newlines, a lazy [.*?],
    two newlines, three dashes, two newlines, the starred word Answer with
    its colon, [\s*], two newlines. *)
Definition framing (title : string) : regex :=
  sequence
    [ Chr (Lit thinking_mark); star Space; chars (lit title); star Space;
      chars [nl; nl]; lazy_star DotAll;
      chars ([nl; nl] ++ lit "---" ++ [nl; nl] ++ lit "**Answer:**");
      star Space; chars [nl; nl] ].

Definition re_thinking : regex := framing "**Thinking...**".
Definition re_thought_process : regex := framing "**Thought Process:**".

(** Bold, italic and code: a delimiter (two stars, one star, one backquote),
    a lazy [.*?] as group 1, the delimiter again. *)
Definition delimited (d : string) : regex :=
  sequence [ chars (lit d); Group (lazy_star Dot); chars (lit d) ].

Definition re_bold : regex := delimited "**".
Definition re_italic : regex := delimited "*".
Definition re_code : regex := delimited "`".

(** Headers: [#{1,6}], [\s*], then a greedy [.*] as group 1. *)
Definition re_header : regex :=
  sequence [ Rep (Lit 35%N) 1 (Some 6) true; star Space; Group (star Dot) ].

(** Sentence ends and commas: a look-behind on one of [.!?] (on a comma),
    then [\s+]. *)
Definition re_sentence_end : regex :=
  sequence [ LookBehind (OneOf (lit ".!?")); plus Space ].
Definition re_comma : regex :=
  sequence [ LookBehind (Lit 44%N); plus Space ].

Definition clean (text : str) : str :=
  let t := sub re_thinking repl_empty text in
  let t := sub re_thought_process repl_empty t in
  let t := sub re_bold repl_group1 t in
  let t := sub re_italic repl_group1 t in
  let t := sub re_code repl_group1 t in
  sub re_header repl_group1 t.

(** [[s.strip() for s in sentences if s.strip() and len(s.strip()) > 3]] *)
Definition keep (sentences : list str) : list str :=
  omap (fun s => let s' := strip s in
                 if negb (bool_decide (s' = [])) && (3 <? length s')%nat
                 then Some s' else None) sentences.

(** The body of the [while] after [current] is fixed: a [current] longer
    than [max_sentence_length] is split at commas. *)
Definition emit (max_sentence_length : nat) (current : str) : list str :=
  if (max_sentence_length <? length current)%nat
  then split re_comma current
  else [current].

(** The [while i < len(sentences)] loop; the list is [sentences[i:]]. *)
Fixpoint merge (max_sentence_length : nat) (sentences : list str)
  : list str :=
  match sentences with
  | [] => []
  | current :: rest =>
      if (length current <? 20)%nat then
        match rest with
        | next :: rest' =>
            emit max_sentence_length (current ++ lit " " ++ next)
              ++ merge max_sentence_length rest'
        | [] => emit max_sentence_length current
        end
      else emit max_sentence_length current
             ++ merge max_sentence_length rest
  end.

Definition split_into_sentences (max_sentence_length : nat) (text : str)
  : list str :=
  merge max_sentence_length
    (keep (split re_sentence_end (strip (clean text)))).

End Sentences.

(** ** Decoded JSON values *)

Module Json.

(** What [json.loads] returns, floats left out: [None], [bool], [int],
    [str], [list], and [dict] as its items in insertion order (keys are
    unique in a [dict]). *)
#[warnings="-register-all"]
Inductive json : Type :=
| JNull
| JBool (b : bool)
| JInt (n : Z)
| JStr (s : str)
| JArr (l : list json)
| JObj (items : list (str * json)).

Definition jstr (s : string) : json := JStr (lit s).
Definition jnat (n : nat) : json := JInt (Z.of_nat n).
Arguments jstr : simpl never.

(** Truth value of [if v:]. *)
Definition truthy (v : json) : bool :=
  match v with
  | JNull => false
  | JBool b => b
  | JInt n => negb (n =? 0)%Z
  | JStr s => negb (bool_decide (s = []))
  | JArr l => negb (bool_decide (length l = 0))
  | JObj l => negb (bool_decide (length l = 0))
  end.

Fixpoint assoc {A} (k : str) (l : list (str * A)) : option A :=
  match l with
  | [] => None
  | (k', v) :: l' => if str_eqb k k' then Some v else assoc k l'
  end.

(** [a == b]: [True == 1], lists item by item, dicts key by key. *)
Fixpoint py_eq (a b : json) {struct a} : bool :=
  match a, b with
  | JNull, JNull => true
  | JBool x, JBool y => Bool.eqb x y
  | JBool x, JInt n | JInt n, JBool x => (n =? (if x then 1 else 0))%Z
  | JInt m, JInt n => (m =? n)%Z
  | JStr s, JStr t => str_eqb s t
  | JArr l, JArr m =>
      (fix items (l m : list json) : bool :=
         match l, m with
         | [], [] => true
         | x :: l', y :: m' => py_eq x y && items l' m'
         | _, _ => false
         end) l m
  | JObj l, JObj m =>
      (length l =? length m)%nat &&
      (fix items (l : list (str * json)) : bool :=
         match l with
         | [] => true
         | (k, v) :: l' =>
             match assoc k m with
             | Some w => py_eq v w && items l'
             | None => false
             end
         end) l
  | _, _ => false
  end.

(** [type(v).__name__] *)
Definition type_name (v : json) : string :=
  match v with
  | JNull => "NoneType"
  | JBool _ => "bool"
  | JInt _ => "int"
  | JStr _ => "str"
  | JArr _ => "list"
  | JObj _ => "dict"
  end.

End Json.
Export Json.

(** ** The service object *)

Module Service.

(** A connection is known by its identity. *)
Definition conn := nat.

(** What [_send_response] hands to [websocket.send]: the [command] and the
    [payload] of the response (its [timestamp] is the clock's). *)
Record message : Type := Message {
  msg_to : conn;
  msg_command : str;
  msg_payload : list (str * json)
}.

Definition sent (ws : conn) (command : string)
    (payload : list (string * json)) : message :=
  Message ws (lit command) (map (fun kv => (lit kv.1, kv.2)) payload).
Arguments sent : simpl never.

(** An entry of [self.tts_queue] (its [timestamp] left out). *)
Record request : Type := Request {
  req_websocket : conn;
  req_text : json;
  req_message_id : json;
  req_streaming : json
}.

(** Where a [_process_tts_queue] task stands: made and not started, or
    suspended at one of its [await]s, or returned.  In the streaming
    handler [total] is [len(sentences)] and [todo] is the part of
    [enumerate(sentences)] the [for] loop has not visited yet. *)
Inductive task : Type :=
| Created
| StreamStartSent (r : request) (total : nat) (todo : list (nat * str))
| StreamSynth (r : request) (total : nat) (i : nat) (sentence : str)
    (todo : list (nat * str))
| StreamChunkSent (r : request) (total : nat) (todo : list (nat * str))
| StreamSleep (r : request) (total : nat) (todo : list (nat * str))
| StreamEndSent (r : request)
| SingleSynth (r : request)
| SingleSent (r : request)
| SingleErrorSent (r : request)
| Returned.

(** The field of [SpeechConfig] the synthesis side reads, and its
    default. *)
Record SpeechConfig : Type := {
  max_sentence_length : nat
}.

Definition default_config : SpeechConfig :=
  {| max_sentence_length := 50 |}.

(** The [maxsize] of [self.tts_queue = queue.Queue(maxsize=10)]. *)
Definition tts_queue_maxsize : nat := 10.
Arguments tts_queue_maxsize : simpl never.

(** The attributes of [self] the event loop reads and writes, the
    [_last_message_data] attribute of each connection, what was sent, and
    the tasks made by [asyncio.create_task]. *)
Record service : Type := {
  config : SpeechConfig;
  running : bool;
  device : str;
  whisper_model : bool;             (* loaded, or [None] *)
  tts_model : bool;                 (* loaded, or [None] *)
  tts_queue : list request;
  is_processing_tts : bool;
  current_tts_id : json;
  websocket_clients : gset conn;
  last_message_data : gmap conn json;
  outbox : list message;
  tasks : list task
}.

Definition set_tts_queue (q : list request) (s : service) : service :=
  {| config := config s; running := running s; device := device s;
     whisper_model := whisper_model s; tts_model := tts_model s;
     tts_queue := q; is_processing_tts := is_processing_tts s;
     current_tts_id := current_tts_id s;
     websocket_clients := websocket_clients s;
     last_message_data := last_message_data s;
     outbox := outbox s; tasks := tasks s |}.

Definition set_processing (b : bool) (id : json) (s : service) : service :=
  {| config := config s; running := running s; device := device s;
     whisper_model := whisper_model s; tts_model := tts_model s;
     tts_queue := tts_queue s; is_processing_tts := b;
     current_tts_id := id;
     websocket_clients := websocket_clients s;
     last_message_data := last_message_data s;
     outbox := outbox s; tasks := tasks s |}.

Definition set_clients (c : gset conn) (s : service) : service :=
  {| config := config s; running := running s; device := device s;
     whisper_model := whisper_model s; tts_model := tts_model s;
     tts_queue := tts_queue s; is_processing_tts := is_processing_tts s;
     current_tts_id := current_tts_id s;
     websocket_clients := c;
     last_message_data := last_message_data s;
     outbox := outbox s; tasks := tasks s |}.

Definition set_last_message_data (m : gmap conn json) (s : service)
  : service :=
  {| config := config s; running := running s; device := device s;
     whisper_model := whisper_model s; tts_model := tts_model s;
     tts_queue := tts_queue s; is_processing_tts := is_processing_tts s;
     current_tts_id := current_tts_id s;
     websocket_clients := websocket_clients s;
     last_message_data := m;
     outbox := outbox s; tasks := tasks s |}.

Definition set_outbox (o : list message) (s : service) : service :=
  {| config := config s; running := running s; device := device s;
     whisper_model := whisper_model s; tts_model := tts_model s;
     tts_queue := tts_queue s; is_processing_tts := is_processing_tts s;
     current_tts_id := current_tts_id s;
     websocket_clients := websocket_clients s;
     last_message_data := last_message_data s;
     outbox := o; tasks := tasks s |}.

Definition set_tasks (t : list task) (s : service) : service :=
  {| config := config s; running := running s; device := device s;
     whisper_model := whisper_model s; tts_model := tts_model s;
     tts_queue := tts_queue s; is_processing_tts := is_processing_tts s;
     current_tts_id := current_tts_id s;
     websocket_clients := websocket_clients s;
     last_message_data := last_message_data s;
     outbox := outbox s; tasks := t |}.

(** [SpeechService(SpeechConfig())] once [start] has set [running]: no
    client, empty queues, nothing in flight. *)
Definition started (dev : str) (whisper tts : bool) : service :=
  {| config := default_config; running := true; device := dev;
     whisper_model := whisper; tts_model := tts;
     tts_queue := []; is_processing_tts := false; current_tts_id := JNull;
     websocket_clients := ∅; last_message_data := ∅;
     outbox := []; tasks := [] |}.

(** *** Exceptions and the handler monad *)

Inductive exn : Type :=
| JSONDecodeError (msg : str)
| AttributeError (msg : str)
| TypeError (msg : str)
| QueueFull
| OSError (msg : str).

(** [str(e)] *)
Definition exn_str (e : exn) : str :=
  match e with
  | JSONDecodeError m | AttributeError m | TypeError m | OSError m => m
  | QueueFull => []
  end.

Inductive res (A : Type) : Type :=
| Val (a : A)
| Exc (e : exn).
Arguments Val {A} a.
Arguments Exc {A} e.

(** A piece of handler code: it reads and writes [self] and returns or
    raises. *)
Definition M (A : Type) : Type := service -> res A * service.

#[export] Instance M_ret : MRet M := fun A a s => (Val a, s).
#[export] Instance M_bind : MBind M := fun A B f m s =>
  match m s with
  | (Val a, s') => f a s'
  | (Exc e, s') => (Exc e, s')
  end.

Definition raise {A} (e : exn) : M A := fun s => (Exc e, s).
Definition get : M service := fun s => (Val s, s).
Definition modify (f : service -> service) : M unit :=
  fun s => (Val tt, f s).

(** [try: body except Exception as e: handler(e)] *)
Definition try_except {A} (body : M A) (handler : exn -> M A) : M A :=
  fun s =>
    match body s with
    | (Val a, s') => (Val a, s')
    | (Exc e, s') => handler e s'
    end.

(** The state a handler leaves, whether it returned or raised. *)
Definition exec {A} (m : M A) (s : service) : service := (m s).2.

(** [v.get(key, default)]: only a [dict] has [get]. *)
Definition dict_get (v : json) (key : string) (dflt : json) : M json :=
  match v with
  | JObj items => mret (default dflt (assoc (lit key) items))
  | _ => raise (AttributeError
                  (lit "'" ++ lit (type_name v)
                   ++ lit "' object has no attribute 'get'"))
  end.

(** [command == 'name'] *)
Definition is_command (command : json) (name : string) : bool :=
  py_eq command (jstr name).
Arguments is_command : simpl never.

(** [_send_response]: the response goes to [websocket.send]; a failure of
    the send is logged inside and never raised. *)
Definition send_response (ws : conn) (command : string)
    (payload : list (string * json)) : M unit :=
  modify (fun s => set_outbox (outbox s ++ [sent ws command payload]) s).

(** *** The synthesis queue: [_handle_tts_request] and [_handle_stop_tts] *)

(** [self.tts_queue.put_nowait(r)]: a queue made with a positive
    [maxsize] raises [queue.Full] when it holds that many items. *)
Definition put_nowait (r : request) : M unit :=
  s ← get;
  if (0 <? tts_queue_maxsize)%nat
     && (tts_queue_maxsize <=? length (tts_queue s))%nat
  then raise QueueFull
  else modify (set_tts_queue (tts_queue s ++ [r])).

(** [asyncio.create_task(self._process_tts_queue())]: the task is made and
    runs when the event loop next picks it. *)
Definition create_task : M unit :=
  modify (fun s => set_tasks (tasks s ++ [Created]) s).

(** [text[:50]], evaluated for the log line: a [str] or a [list] can be
    sliced. *)
Definition slice_for_log (text : json) : M unit :=
  match text with
  | JStr _ | JArr _ => mret tt
  | JObj _ => raise (TypeError (lit "unhashable type: 'slice'"))
  | _ => raise (TypeError (lit "'" ++ lit (type_name text)
                           ++ lit "' object is not subscriptable"))
  end.

Definition handle_tts_request (ws : conn) (text message_id : json)
  : M unit :=
  self ← get;
  if negb (tts_model self) then
    send_response ws "speech_error" [("error", jstr "TTS model not loaded")]
  else
    try_except
      (slice_for_log text;;
       self ← get;
       payload ← match last_message_data self !! ws with
                 | Some data => dict_get data "payload" (JObj [])
                 | None => mret (JObj [(lit "text", text)])
                 end;
       streaming ← dict_get payload "streaming" (JBool false);
       let tts_request :=
         {| req_websocket := ws; req_text := text;
            req_message_id := message_id; req_streaming := streaming |} in
       try_except
         (put_nowait tts_request;; create_task)
         (fun e =>
            match e with
            | QueueFull =>
                send_response ws "speech_error"
                  [("error", jstr "TTS queue full, please try again later")]
            | _ => raise e
            end))
      (fun e => send_response ws "speech_error" [("error", JStr (exn_str e))]).

(** [_handle_stop_tts].  The handler holds [self.tts_lock] from its test
    to the end of its send, and all it does to [self] comes before the
    send: it is one step. *)
Definition handle_stop_tts (ws : conn) : M unit :=
  try_except
    (self ← get;
     if is_processing_tts self then
       modify (set_tts_queue []);;
       modify (set_processing false JNull);;
       send_response ws "tts_stopped"
         [("message", jstr "TTS processing stopped")]
     else
       send_response ws "tts_stopped"
         [("message", jstr "No TTS currently processing")])
    (fun _ => mret tt).

(** [_handle_ggwave_request]; [success] is what [_send_ggwave] returned from
    the executor ([_send_ggwave] returns [False] on every exception, so the
    [except] branch is never entered from it). *)
Definition handle_ggwave_request (ws : conn) (text : json) (success : bool)
  : M unit :=
  try_except
    (send_response ws "ggwave_sent"
       [("success", JBool success); ("text", text)])
    (fun e => send_response ws "ggwave_error" [("error", JStr (exn_str e))]).

(** *** Command dispatch: [_handle_websocket_message] *)

(** A message as the handler receives it: [json.loads] raises on it, or
    returns a value. *)
Inductive inbound : Type :=
| Malformed (msg : str)
| Decoded (data : json).

Definition json_loads (message : inbound) : M json :=
  match message with
  | Malformed msg => raise (JSONDecodeError msg)
  | Decoded data => mret data
  end.

Definition status_payload (self : service) : list (string * json) :=
  [ ("listening", JBool (running self));
    ("device", JStr (device self));
    ("models_loaded", JBool (whisper_model self && tts_model self));
    ("tts_queue_size", jnat (length (tts_queue self)));
    ("is_processing_tts", JBool (is_processing_tts self));
    ("current_tts_id", current_tts_id self) ].

Definition handle_websocket_message (ws : conn) (message : inbound)
    (ggwave_success : bool) : M unit :=
  try_except
    (data ← json_loads message;
     command ← dict_get data "command" JNull;
     payload ← dict_get data "payload" (JObj []);
     modify (fun s =>
       set_last_message_data (<[ws := data]> (last_message_data s)) s);;
     if is_command command "start_listening" then
       send_response ws "listening_started" [("status", jstr "ok")]
     else if is_command command "stop_listening" then
       send_response ws "listening_stopped" [("status", jstr "ok")]
     else if is_command command "synthesize_speech" then
       text ← dict_get payload "text" (jstr "");
       message_id ← dict_get payload "messageId" JNull;
       if truthy text then handle_tts_request ws text message_id
       else mret tt
     else if is_command command "stop_tts" then
       handle_stop_tts ws
     else if is_command command "send_ggwave" then
       text ← dict_get payload "text" (jstr "");
       if truthy text then handle_ggwave_request ws text ggwave_success
       else mret tt
     else if is_command command "get_status" then
       self ← get;
       send_response ws "status" (status_payload self)
     else mret tt)
    (fun _ => mret tt).    (* both [except] clauses log and return *)

(** *** The connection handler: [handle_client] *)

Definition connect (ws : conn) : M unit :=
  modify (fun s => set_clients ({[ws]} ∪ websocket_clients s) s);;
  send_response ws "connected"
    [("message", jstr "Connected to Ally Speech Service");
     ("version", jstr "1.0.0")].

(** One turn of [async for message in websocket]. *)
Definition on_message (ws : conn) (message : inbound) (ggwave_success : bool)
  : M unit :=
  try_except
    (handle_websocket_message ws message ggwave_success)
    (fun e => send_response ws "error" [("error", JStr (exn_str e))]).

(** The [finally] of [handle_client], reached when the iteration over the
    connection ends. *)
Definition disconnect (ws : conn) : M unit :=
  modify (fun s => set_clients (websocket_clients s ∖ {[ws]}) s).


(** *** The driver loop: [_process_tts_queue] and its two handlers

    What the event loop hands back to a suspended task. *)
Inductive resumption : Type :=
| Continue                (* the awaited send or sleep is over, and what
                             follows up to the next [await] does not raise *)
| Speech (audio : str)    (* [_generate_speech] made the file; it was read
                             and base64-encoded into [audio] *)
| NoSpeech                (* [_generate_speech] returned [None], or the file
                             is not there *)
| Failure (e : exn).      (* what follows the [await] raises [e]: reading
                             the file, [os.remove] *)

(** [not self.is_processing_tts or self.current_tts_id != message_id] *)
Definition cancelled (r : request) (s : service) : bool :=
  negb (is_processing_tts s)
  || negb (py_eq (current_tts_id s) (req_message_id r)).

Definition send (ws : conn) (command : string)
    (payload : list (string * json)) (s : service) : service :=
  exec (send_response ws command payload) s.

Definition stream_error (r : request) (e : exn) (s : service)
  : service * task :=
  (send (req_websocket r) "tts_stream_error"
     [("error", JStr (exn_str e)); ("message_id", req_message_id r)] s,
   StreamEndSent r).

Definition speech_error (r : request) (error : str) (s : service)
  : service * task :=
  (send (req_websocket r) "speech_error"
     [("error", JStr error); ("message_id", req_message_id r)] s,
   SingleErrorSent r).

(** [enumerate(sentences)] *)
Definition enumerate {A} (l : list A) : list (nat * A) :=
  zip (seq 0 (length l)) l.

(** The [while not self.tts_queue.empty()] loop from its head, [q] being
    the content of the queue, up to the first [await] that suspends, or to
    the [finally] block.  A request found cancelled is dropped and the loop
    goes round. *)
Fixpoint while_loop (q : list request) (s : service) : service * task :=
  match q with
  | [] => (set_processing false JNull s, Returned)
  | r :: q' =>
      let s := set_tts_queue q' s in
      let s := set_processing (is_processing_tts s) (req_message_id r) s in
      if cancelled r s then while_loop q' s
      else if truthy (req_streaming r) then
        match req_text r with
        | JStr text =>
            let sentences :=
              Sentences.split_into_sentences
                (max_sentence_length (config s)) text in
            (send (req_websocket r) "tts_stream_start"
               [("total_sentences", jnat (length sentences));
                ("text", req_text r);
                ("message_id", req_message_id r)] s,
             StreamStartSent r (length sentences) (enumerate sentences))
        | _ =>
            stream_error r
              (TypeError (lit "expected string or bytes-like object")) s
        end
      else (s, SingleSynth r)
  end.

(** The handler has returned to [_process_tts_queue]: [task_done], then the
    [while] test again. *)
Definition back_to_while (s : service) : service * task :=
  while_loop (tts_queue s) s.

(** The [for i, sentence in enumerate(sentences)] loop from its head. *)
Fixpoint stream_for (r : request) (total : nat) (todo : list (nat * str))
    (s : service) : service * task :=
  match todo with
  | [] =>
      (send (req_websocket r) "tts_stream_complete"
         [("text", req_text r); ("total_chunks", jnat total);
          ("message_id", req_message_id r)] s,
       StreamEndSent r)
  | (i, sentence) :: todo' =>
      if cancelled r s then back_to_while s
      else if negb (bool_decide (strip sentence = []))
      then (s, StreamSynth r total i sentence todo')
      else stream_for r total todo' s
  end.

(** The first step of a task: the guard of [_process_tts_queue] under the
    lock, then the loop. *)
Definition start_task (s : service) : service * task :=
  if is_processing_tts s then (s, Returned)
  else if bool_decide (tts_queue s = []) then (s, Returned)
  else back_to_while (set_processing true (current_tts_id s) s).

(** One step of a task: from the [await] it is suspended at to the next.
    [None] when the resumption is not one this [await] can get. *)
Definition resume (t : task) (x : resumption) (s : service)
  : option (service * task) :=
  match t, x with
  | Created, Continue => Some (start_task s)
  | StreamStartSent r total todo, Continue => Some (stream_for r total todo s)
  | StreamSynth r total i sentence todo, Speech audio =>
      Some (send (req_websocket r) "tts_stream_chunk"
              [("audio_data", JStr audio);
               ("text", JStr (strip sentence));
               ("chunk_index", jnat i);
               ("total_chunks", jnat total);
               ("is_final", JBool (Z.of_nat i =? Z.of_nat total - 1)%Z);
               ("message_id", req_message_id r)] s,
            StreamChunkSent r total todo)
  | StreamSynth r total i sentence todo, NoSpeech =>
      Some (stream_for r total todo s)
  | StreamSynth r _ _ _ _, Failure e => Some (stream_error r e s)
  | StreamChunkSent r total todo, Continue =>
      Some (s, StreamSleep r total todo)
  | StreamChunkSent r _ _, Failure e => Some (stream_error r e s)
  | StreamSleep r total todo, Continue => Some (stream_for r total todo s)
  | StreamEndSent _, Continue => Some (back_to_while s)
  | SingleSynth r, Speech audio =>
      Some (send (req_websocket r) "speech_generated"
              [("audio_data", JStr audio); ("text", req_text r);
               ("message_id", req_message_id r)] s,
            SingleSent r)
  | SingleSynth r, NoSpeech =>
      Some (speech_error r (lit "Failed to generate speech") s)
  | SingleSynth r, Failure e => Some (speech_error r (exn_str e) s)
  | SingleSent r, Continue => Some (back_to_while s)
  | SingleSent r, Failure e => Some (speech_error r (exn_str e) s)
  | SingleErrorSent _, Continue => Some (back_to_while s)
  | _, _ => None
  end.

(** *** The event loop

    A run is a sequence of events: a connection is made or closed, a
    message is handled, or a driver task is resumed.  A message handler is
    one step, since whatever a handler reads or writes in [self] comes
    before its first [await]; the driver tasks interleave with the handlers
    and with each other at every [await]. *)

Inductive event : Type :=
| Connect (ws : conn)
| Receive (ws : conn) (message : inbound) (ggwave_success : bool)
| Disconnect (ws : conn)
| Resume (k : nat) (x : resumption).

Definition step (s : service) (e : event) : option service :=
  match e with
  | Connect ws => Some (exec (connect ws) s)
  | Receive ws message ggwave_success =>
      Some (exec (on_message ws message ggwave_success) s)
  | Disconnect ws => Some (exec (disconnect ws) s)
  | Resume k x =>
      t ← tasks s !! k;
      '(s', t') ← resume t x s;
      Some (set_tasks (<[k := t']> (tasks s')) s')
  end.

Fixpoint run (s : service) (events : list event) : option service :=
  match events with
  | [] => Some s
  | e :: events' => s' ← step s e; run s' events'
  end.

End Service.
Export Service.

(** ** The minimal service: [MinimalSpeechService]

    It keeps [websocket_clients] and [running] and answers every command
    with a fixed response; the same record and monad serve. *)

Module Minimal.
Section Formatting.

(** [repr] of a [list] or a [dict], as an f-string prints it. *)
Variable repr : json -> str.

(** [f'{v}'] *)
Definition format (v : json) : str :=
  match v with
  | JNull => lit "None"
  | JBool true => lit "True"
  | JBool false => lit "False"
  | JInt n => lit (NilZero.string_of_int (Z.to_int n))
  | JStr s => s
  | JArr _ | JObj _ => repr v
  end.

Definition handle_websocket_message (ws : conn) (message : inbound)
  : M unit :=
  try_except
    (data ← json_loads message;
     command ← dict_get data "command" JNull;
     payload ← dict_get data "payload" (JObj []);
     if is_command command "get_status" then
       send_response ws "status"
         [("listening", JBool false); ("device", jstr "cpu");
          ("models_loaded", JBool false); ("service_type", jstr "minimal")]
     else if is_command command "start_listening" then
       send_response ws "listening_started" [("status", jstr "ok")]
     else if is_command command "stop_listening" then
       send_response ws "listening_stopped" [("status", jstr "ok")]
     else if is_command command "synthesize_speech" then
       _ ← dict_get payload "text" (jstr "");
       send_response ws "speech_error"
         [("error", jstr "TTS not available in minimal service")]
     else if is_command command "send_ggwave" then
       _ ← dict_get payload "text" (jstr "");
       send_response ws "ggwave_error"
         [("error", jstr "ggwave not available in minimal service")]
     else
       send_response ws "error"
         [("error", JStr (lit "Unknown command: " ++ format command))])
    (fun e =>
       match e with
       | JSONDecodeError _ =>
           send_response ws "error" [("error", jstr "Invalid JSON")]
       | _ => raise e
       end).

(** One turn of [async for message in websocket] in [handle_client]. *)
Definition on_message (ws : conn) (message : inbound) : M unit :=
  try_except
    (handle_websocket_message ws message)
    (fun e => send_response ws "error" [("error", JStr (exn_str e))]).

End Formatting.
End Minimal.

(** ** The segmentation buffer: [audio_capture] and [_process_speech_buffer] *)

Module Capture.

Definition frame := list Byte.byte.

Record config : Type := {
  silence_threshold : nat;
  max_speech_chunks : nat;
  min_speech_chunks : nat
}.

(** The defaults of [SpeechConfig]. *)
Definition default_config : config :=
  {| silence_threshold := 2; max_speech_chunks := 100;
     min_speech_chunks := 10 |}.

(** The attributes of [self] the capture thread works on; [audio_queue] is
    the [queue.Queue(maxsize=5)] the recognition thread reads. *)
Record buffer : Type := {
  speech_buffer : list frame;
  silence_counter : nat;
  audio_queue : list (list Byte.byte)
}.

Definition initial : buffer :=
  {| speech_buffer := []; silence_counter := 0; audio_queue := [] |}.

(** What [self.vad.is_speech(data, rate)] does on a frame. *)
Inductive vad : Type :=
| IsSpeech
| IsSilence
| VadRaises.

(** An utterance as it leaves the buffer: the frames joined, and how many
    they were. *)
Record utterance : Type := {
  payload : list Byte.byte;
  frame_count : nat
}.

Definition audio_queue_maxsize : nat := 5.

(** [_process_speech_buffer]: the new state, and the utterance put on
    [audio_queue] if one was. *)
Definition process_speech_buffer (c : config) (b : buffer)
  : buffer * option utterance :=
  if (min_speech_chunks c <=? length (speech_buffer b))%nat then
    if (silence_threshold c <=? silence_counter b)%nat
       || (max_speech_chunks c <=? length (speech_buffer b))%nat
    then
      let audio_data := concat (speech_buffer b) in
      let cleared q :=
        {| speech_buffer := []; silence_counter := silence_counter b;
           audio_queue := q |} in
      if (length (audio_queue b) <? 3)%nat then
        if (audio_queue_maxsize <=? length (audio_queue b))%nat
        then (cleared (audio_queue b), None)       (* [queue.Full], logged *)
        else (cleared (audio_queue b ++ [audio_data]),
              Some {| payload := audio_data;
                      frame_count := length (speech_buffer b) |})
      else (cleared (audio_queue b), None)
    else (b, None)
  else (b, None).

(** One turn of the [while] loop of [audio_capture] on the frame [data]. *)
Definition observe (c : config) (b : buffer) (data : frame) (v : vad)
  : buffer * option utterance :=
  match v with
  | IsSpeech =>
      ({| speech_buffer := speech_buffer b ++ [data]; silence_counter := 0;
          audio_queue := audio_queue b |}, None)
  | IsSilence =>
      process_speech_buffer c
        {| speech_buffer := speech_buffer b;
           silence_counter := S (silence_counter b);
           audio_queue := audio_queue b |}
  | VadRaises => (b, None)       (* caught and logged by the loop *)
  end.

(** The two threads on [audio_queue]: the capture thread reads a frame, or
    the recognition thread takes the oldest utterance. *)
Inductive event : Type :=
| Frame (data : frame) (v : vad)
| Take.

Definition step (c : config) (b : buffer) (e : event)
  : buffer * option utterance :=
  match e with
  | Frame data v => observe c b data v
  | Take =>
      ({| speech_buffer := speech_buffer b;
          silence_counter := silence_counter b;
          audio_queue := tail (audio_queue b) |}, None)
  end.

(** The utterances handed to the recognition queue along a run, oldest
    first, and the state the run ends in. *)
Fixpoint run (c : config) (b : buffer) (events : list event)
  : buffer * list utterance :=
  match events with
  | [] => (b, [])
  | e :: events' =>
      let '(b', u) := step c b e in
      let '(b'', us) := run c b' events' in
      (b'', option_list u ++ us)
  end.

Definition emitted (c : config) (events : list event) : list utterance :=
  (run c initial events).2.

(** The longest stretch of speech frames with no silence frame inside is at
    most [r]; [n] is the length of the stretch being read. *)
Fixpoint speech_runs_within (r n : nat) (events : list event) : bool :=
  match events with
  | [] => true
  | Frame _ IsSpeech :: events' =>
      (S n <=? r)%nat && speech_runs_within r (S n) events'
  | Frame _ IsSilence :: events' => speech_runs_within r 0 events'
  | _ :: events' => speech_runs_within r n events'
  end.

End Capture.

(** ** The broadcast hub: [_broadcast_message] and [_broadcast_handler] *)

Module Hub.






End Hub.

(** ** The acoustic modem: [_send_ggwave] *)

Module Ggwave.

(** [range(0, n, step)] for a positive [step]. *)
Definition range_step (n step : nat) : list nat :=
  map (fun j => j * step) (seq 0 ((n + step - 1) / step)).

(** [[text[i:i + size] for i in range(0, len(text), size)]]; [range]
    raises [ValueError] on the step 0. *)
Definition chunks {A} (size : nat) (text : list A) : option (list (list A)) :=
  if (size =? 0)%nat then None
  else Some (map (fun i => take size (drop i text))
               (range_step (length text) size)).


End Ggwave.

(** ** Process start: [setup_environment] of [start_service.py] *)

Module Startup.

(** [not os.getenv(name)] on [os.environ]: the variable is unset, or set
    to the empty string. *)
Definition unset (name : string) (env : gmap string str) : bool :=
  match env !! name with
  | Some (_ :: _) => false
  | _ => true
  end.

Definition set_default (name value : string) (env : gmap string str)
  : gmap string str :=
  if unset name env then <[name := lit value]> env else env.

(** What [import torch] and [torch.cuda.is_available()] give. *)
Inductive torch : Type :=
| NotInstalled
| CudaAvailable
| CudaMissing.

Definition setup_environment (t : torch) (env : gmap string str)
  : gmap string str :=
  let env := set_default "WHISPER_MODEL" "base" env in
  let env := set_default "TTS_MODEL" "tts_models/en/jenny/jenny" env in
  let env := set_default "WEBSOCKET_PORT" "8765" env in
  match t with
  | CudaAvailable => <["CUDA_VISIBLE_DEVICES" := lit "0"]> env
  | _ => env
  end.

End Startup.

(** * Vocabulary of the properties *)

(** ** Messages of the wire protocol *)

(** The mapping [{"command": command, "payload": payload}], the payload
    left out when [None]. *)
Definition command_message (command : string) (payload : option json)
  : inbound :=
  Decoded (JObj ((lit "command", jstr command)
                 :: match payload with
                    | Some p => [(lit "payload", p)]
                    | None => []
                    end)).

(** The command names [SpeechService._handle_websocket_message] tests for,
    and those of [MinimalSpeechService]. *)
Definition recognized : list string :=
  ["start_listening"; "stop_listening"; "synthesize_speech"; "stop_tts";
   "send_ggwave"; "get_status"].

Definition recognized_minimal : list string :=
  ["get_status"; "start_listening"; "stop_listening"; "synthesize_speech";
   "send_ggwave"].

Definition unknown_to (names : list string) (command : json) : bool :=
  forallb (fun name => negb (is_command command name)) names.

(** The [listening] field of a response. *)
Definition listening_reported (m : message) : option json :=
  assoc (lit "listening") (msg_payload m).

(** ** Requests in flight *)

(** The request a task is in the middle of: the one whose handler it is
    suspended in. *)
Definition in_flight (t : task) : option request :=
  match t with
  | Created | Returned => None
  | StreamStartSent r _ _ | StreamSynth r _ _ _ _ | StreamChunkSent r _ _
  | StreamSleep r _ _ | StreamEndSent r
  | SingleSynth r | SingleSent r | SingleErrorSent r => Some r
  end.


Definition requests_in_flight (s : service) : list request :=
  omap in_flight (tasks s).




(** ** The driver's attributes along a run *)

(** What a handler other than [stop_tts] may do to the driver's
    attributes: nothing to the processing flag and the current id, and
    only new, unstarted tasks. *)
Definition quiet_step (s s' : service) : Prop :=
  is_processing_tts s' = is_processing_tts s
  /\ current_tts_id s' = current_tts_id s
  /\ exists n, tasks s' = tasks s ++ replicate n Created.

Definition quiet {A} (m : M A) : Prop := forall s, quiet_step s (m s).2.




(** The task has handed the last event of its request to the connection
    and waits for that send. *)
Definition at_end (t : task) : bool :=
  match t with
  | StreamEndSent _ | SingleSent _ | SingleErrorSent _ => true
  | _ => false
  end.

(** A message id that is absent or a scalar. *)
Definition plain_id (id : json) : bool :=
  match id with
  | JNull | JBool _ | JInt _ | JStr _ => true
  | JArr _ | JObj _ => false
  end.

(** ** Runs used as examples *)

(** A [synthesize_speech] message with a text, single-shot or streaming. *)
Definition synthesize (text : string) (streaming : bool) : inbound :=
  command_message "synthesize_speech"
    (Some (JObj ((lit "text", jstr text)
                 :: if streaming then [(lit "streaming", JBool true)]
                    else []))).


(** The same with a [stop_tts] between the two enqueues. *)
Definition enqueue_stop_enqueue : list event :=
  [Connect 1;
   Receive 1 (synthesize "First request." false) true;
   Resume 0 Continue;
   Receive 1 (command_message "stop_tts" None) true;
   Receive 1 (synthesize "Second request." false) true;
   Resume 1 Continue].

(** ** The events of a streaming request *)

(** The sentences the [for] loop sends to the executor: those with
    something left after [strip]. *)
Definition spoken (todo : list (nat * str)) : list (nat * str) :=
  List.filter (fun p => negb (bool_decide (strip p.2 = []))) todo.

(** The resumptions of task [k] for one sentence: the audio arrives, the
    chunk is sent and the delay passes; or the executor gives nothing. *)
Definition chunk_schedule (k : nat) (o : option str) : list event :=
  match o with
  | Some audio => [Resume k (Speech audio); Resume k Continue;
                   Resume k Continue]
  | None => [Resume k NoSpeech]
  end.

Definition stream_chunk (r : request) (total i : nat) (sentence audio : str)
  : message :=
  sent (req_websocket r) "tts_stream_chunk"
    [("audio_data", JStr audio);
     ("text", JStr (strip sentence));
     ("chunk_index", jnat i);
     ("total_chunks", jnat total);
     ("is_final", JBool (Z.of_nat i =? Z.of_nat total - 1)%Z);
     ("message_id", req_message_id r)].

Definition stream_complete (r : request) (total : nat) : message :=
  sent (req_websocket r) "tts_stream_complete"
    [("text", req_text r); ("total_chunks", jnat total);
     ("message_id", req_message_id r)].

Definition stream_failed (r : request) (e : exn) : message :=
  sent (req_websocket r) "tts_stream_error"
    [("error", JStr (exn_str e)); ("message_id", req_message_id r)].

(** The chunks of the sentences whose audio arrived, in order. *)
Definition delivered (r : request) (total : nat) (todo : list (nat * str))
    (os : list (option str)) : list message :=
  omap (fun p => stream_chunk r total p.1.1 p.1.2 <$> p.2) (zip todo os).

(** The request [One. Two. Three.] streamed on connection 1, up to the
    moment [tts_stream_start] is sent. *)
Definition stream_started : list event :=
  [Connect 1;
   Receive 1 (synthesize "One. Two. Three." true) true;
   Resume 0 Continue].

(** The executor gives nothing for the first sentence of that request and
    audio for the second. *)
Definition first_chunk_fails : list event :=
  stream_started
  ++ Resume 0 Continue
     :: concat (map (chunk_schedule 0) [None; Some (lit "UklGRg==")]).

(** The service after a run from the started service ([started] itself
    when the run is not possible). *)
Definition state_after (events : list event) : service :=
  default (started (lit "cpu") true true)
    (run (started (lit "cpu") true true) events).

(** The request of [stream_started] as the queue holds it, and its
    sentences. *)
Definition one_two_three : request :=
  {| req_websocket := 1; req_text := jstr "One. Two. Three.";
     req_message_id := JNull; req_streaming := JBool true |}.

Definition one_two_three_sentences : list (nat * str) :=
  [(0, lit "One. Two."); (1, lit "Three.")].

(** A second request is enqueued while the first sentence of the first is
    with the executor, and reading the audio file then fails. *)
Definition stream_fails_with_one_queued : list event :=
  stream_started
  ++ [Resume 0 Continue;
      Receive 1 (synthesize "Second request." false) true;
      Resume 0 (Failure (OSError (lit "No such file or directory")))].

(** Ten more requests arrive while the first is with the executor. *)
Definition queue_filled : list event :=
  [Connect 1;
   Receive 1 (synthesize "First request." false) true;
   Resume 0 Continue]
  ++ replicate 10 (Receive 1 (synthesize "One more request." false) true).

(** ** Frames *)

(** [n] speech frames, then one silence frame. *)
Definition speech_then_silence (n : nat) : list Capture.event :=
  replicate n (Capture.Frame [] Capture.IsSpeech)
  ++ [Capture.Frame [] Capture.IsSilence].

(** ** What a handler does to the service *)

(** A response to connection [ws] that is not the [error] event. *)
Definition to_sender (ws : conn) (m : message) : Prop :=
  msg_to m = ws /\ msg_command m <> lit "error".

(** A piece of handler code that sends nothing. *)
Definition silent {A} (m : M A) : Prop :=
  forall s, outbox (m s).2 = outbox s.

(** A piece of handler code that sends nothing, or sends one response to
    [ws] and returns. *)
Definition answers_once {A} (ws : conn) (m : M A) : Prop :=
  forall s,
    outbox (m s).2 = outbox s
    \/ exists a x, (m s).1 = Val a /\ outbox (m s).2 = outbox s ++ [x]
                   /\ to_sender ws x.

(** A piece of handler code that keeps a property of the service. *)
Definition preserves {A} (I : service -> Prop) (m : M A) : Prop :=
  forall s, I s -> I (m s).2.

(** What a resumed driver task leaves alone, and what it may do: take
    requests from the front of the queue, and send. *)
Definition driver_frame (s s' : service) : Prop :=
  config s' = config s /\ running s' = running s
  /\ websocket_clients s' = websocket_clients s
  /\ last_message_data s' = last_message_data s
  /\ tasks s' = tasks s
  /\ (exists n, tts_queue s' = drop n (tts_queue s))
  /\ (exists l, outbox s' = outbox s ++ l).



(** The answer of [stop_tts] when a request is being processed. *)
Definition stopped (ws : conn) : message :=
  sent ws "tts_stopped" [("message", jstr "TTS processing stopped")].

(** A first request has its audio and its answer is being sent when
    [stop_tts] arrives, then a second request. *)
Definition stop_then_enqueue : list event :=
  [Connect 1;
   Receive 1 (synthesize "First request." false) true;
   Resume 0 Continue;
   Resume 0 (Speech (lit "UklGRg=="));
   Receive 1 (command_message "stop_tts" None) true;
   Receive 1 (synthesize "Second request." false) true].

(** The first sentence of [One. Two. Three.] is with the executor. *)
Definition first_sentence_in_synthesis : list event :=
  stream_started ++ [Resume 0 Continue].

(** ** The events of single-shot requests *)

(** What the executor gives for a single-shot request, and the
    resumptions of task [k] for it: the result arrives, the answer is
    sent. *)
Definition single_schedule (k : nat) (o : option str) : list event :=
  [Resume k (if o is Some audio then Speech audio else NoSpeech);
   Resume k Continue].

Definition single_answer (r : request) (o : option str) : message :=
  match o with
  | Some audio =>
      sent (req_websocket r) "speech_generated"
        [("audio_data", JStr audio); ("text", req_text r);
         ("message_id", req_message_id r)]
  | None =>
      sent (req_websocket r) "speech_error"
        [("error", jstr "Failed to generate speech");
         ("message_id", req_message_id r)]
  end.

(** A queued request the single-shot handler serves: not streaming, its id
    absent or a scalar. *)
Definition single_shot (r : request) : bool :=
  negb (truthy (req_streaming r)) && plain_id (req_message_id r).

(** Three requests arrive; the first is with the executor. *)
Definition three_single_requests : list event :=
  [Connect 1;
   Receive 1 (synthesize "First request." false) true;
   Resume 0 Continue;
   Receive 1 (synthesize "Second request." false) true;
   Receive 1 (synthesize "Third request." false) true].

(** ** Broadcasts *)





(** ** Captured audio *)

(** The audio of the speech frames of a run, in the order they were
    read. *)
Fixpoint speech_data (events : list Capture.event) : list Byte.byte :=
  match events with
  | [] => []
  | Capture.Frame data Capture.IsSpeech :: events' =>
      data ++ speech_data events'
  | _ :: events' => speech_data events'
  end.

(** [n] utterances of twelve frames, each closed by two silence frames,
    with no read by the recognition thread. *)
Definition utterances_unread (n : nat) : list Capture.event :=
  concat (replicate n (speech_then_silence 12
                       ++ [Capture.Frame [] Capture.IsSilence])).

(** ** The process environment *)

(** The variables [setup_environment] gives a default to. *)
Definition defaulted : list string :=
  ["WHISPER_MODEL"; "TTS_MODEL"; "WEBSOCKET_PORT"].

(** An environment where the operator chose the recognition model and left
    the port empty. *)
Definition operator_env : gmap string str :=
  {[ "WHISPER_MODEL" := lit "small"; "WEBSOCKET_PORT" := [];
     "HOME" := lit "/root" ]}.

(** ** Text *)

(** The characters the patterns of [clean] start with: the thought mark,
    the star, the backquote and the hash. *)
Definition markup : list char :=
  [Sentences.thinking_mark; 42%N; 96%N; 35%N].

Definition plain (text : str) : bool :=
  forallb (fun c => negb (existsb (N.eqb c) markup)) text.

(** A pattern that cannot match unless the text at hand starts with [d]. *)
Definition starts_with (d : char) (r : Re.regex) : Prop :=
  (forall prev, Re.match_here r prev [] = None)
  /\ (forall prev c t, c <> d -> Re.match_here r prev (c :: t) = None).

(** What is left of a text when the white space is taken out. *)
Definition nonblank (s : str) : str :=
  List.filter (fun c => negb (isspace c)) s.

(** The number of white-space characters a text starts with. *)
Fixpoint blanks (s : str) : nat :=
  match s with
  | c :: t => if isspace c then S (blanks t) else 0
  | [] => 0
  end.

(** A text that starts with a character other than white space. *)
Definition solid (s : str) : bool :=
  match s with
  | c :: _ => negb (isspace c)
  | [] => false
  end.

(** A pattern whose matches are the white space at hand, all of it. *)
Definition takes_blanks (r : Re.regex) : Prop :=
  forall prev s n g, Re.match_here r prev s = Some (n, g) -> n = blanks s.

(** ** A streaming request from end to end *)

Definition stream_start (r : request) (total : nat) : message :=
  sent (req_websocket r) "tts_stream_start"
    [("total_sentences", jnat total); ("text", req_text r);
     ("message_id", req_message_id r)].

(** The resumptions of task [k] for a streaming request whose sentences
    all get audio: the task starts, [tts_stream_start] is sent, and each
    sentence goes through the executor. *)
Definition stream_schedule (k : nat) (audios : list str) : list event :=
  Resume k Continue :: Resume k Continue
  :: concat (map (chunk_schedule k) (map Some audios)).

(** The request [One. Two. Three.] is queued and its task made. *)
Definition stream_enqueued : list event :=
  [Connect 1; Receive 1 (synthesize "One. Two. Three." true) true].
(** * Theorems *)

(** ** The embedding on small inputs *)

Example strip_both_ends : strip (lit "  Hi there. ") = lit "Hi there.".
Proof. vm_compute. reflexivity. Qed.

Example clean_markup :
  Sentences.clean (lit "## Title **bold** and *it* and `code` x")
  = lit "Title bold and it and code x".
Proof. vm_compute. reflexivity. Qed.

Example clean_framing :
  Sentences.clean
    (Sentences.thinking_mark :: lit " **Thinking...**" ++ [nl; nl]
     ++ lit "hm" ++ [nl; nl] ++ lit "---" ++ [nl; nl] ++ lit "**Answer:**"
     ++ [nl; nl] ++ lit "Real answer.")
  = lit "Real answer.".
Proof. vm_compute. reflexivity. Qed.

Example split_merges_short_and_cuts_long :
  Sentences.split_into_sentences 50
    (lit "Hello there! This is a test. The system should generate audio "
     ++ lit "for each sentence, as it arrives.")
  = [lit "Hello there! This is a test.";
     lit "The system should generate audio for each sentence,";
     lit "as it arrives."].
Proof. vm_compute. reflexivity. Qed.

Example split_of_punctuation_only :
  Sentences.split_into_sentences 50 (lit " . !  ? ") = [].
Proof. vm_compute. reflexivity. Qed.

Example py_eq_true_one : py_eq (JBool true) (JInt 1) = true.
Proof. reflexivity. Qed.

Example py_eq_dict_order :
  py_eq (JObj [(lit "a", JInt 1); (lit "b", JNull)])
        (JObj [(lit "b", JNull); (lit "a", JBool true)]) = true.
Proof. vm_compute. reflexivity. Qed.

Example status_of_started_service :
  outbox (exec (on_message 3 (command_message "get_status" None) true)
            (started (lit "cpu") true true))
  = [sent 3 "status"
       [("listening", JBool true); ("device", jstr "cpu");
        ("models_loaded", JBool true); ("tts_queue_size", jnat 0);
        ("is_processing_tts", JBool false); ("current_tts_id", JNull)]].
Proof. vm_compute. reflexivity. Qed.

(** ** Helpers *)

(** Comparisons of literals are evaluated; the rest stays symbolic. *)
Ltac eval_literals :=
  repeat match goal with
  | |- context [is_command (jstr ?a) ?b] =>
      let v := eval vm_compute in (is_command (jstr a) b) in
      change (is_command (jstr a) b) with v
  | |- context [str_eqb (lit ?a) (lit ?b)] =>
      let v := eval vm_compute in (str_eqb (lit a) (lit b)) in
      change (str_eqb (lit a) (lit b)) with v
  end.

Ltac unfold_handlers :=
  unfold on_message, handle_websocket_message, Minimal.on_message,
    Minimal.handle_websocket_message, handle_stop_tts, handle_tts_request,
    handle_ggwave_request, put_nowait, create_task, slice_for_log,
    send_response, command_message, try_except, exec, json_loads,
    dict_get, mbind, M_bind, mret, M_ret, raise, modify, get.

Ltac simpl_handler := repeat (cbn; progress eval_literals); cbn.

Ltac run_handler := unfold_handlers; simpl_handler.

Lemma unknown_to_cons name names command :
  unknown_to (name :: names) command = true ->
  is_command command name = false /\ unknown_to names command = true.
Proof.
  unfold unknown_to. cbn [forallb]. intros [H1 H2]%andb_prop.
  split; [now apply negb_true_iff | exact H2].
Qed.

(** ** Command dispatch *)

Section Dispatch.

Variable repr : json -> str.
Variables (s : service) (ws : conn) (ggwave_success : bool).

(** A message whose command the full service does not test for leaves every
    attribute but [_last_message_data] as it was and returns. *)
Lemma unknown_command_ignored items :
  unknown_to recognized (default JNull (assoc (lit "command") items)) = true ->
  on_message ws (Decoded (JObj items)) ggwave_success s
  = (Val tt,
     set_last_message_data (<[ws := JObj items]> (last_message_data s)) s).
Proof.
  intros H. unfold recognized in H.
  repeat (apply unknown_to_cons in H; destruct H as [? H]).
  run_handler.
  repeat match goal with
  | H : is_command _ _ = false |- _ => rewrite H; clear H
  end.
  reflexivity.
Qed.

Lemma minimal_unknown_command items :
  let command := default JNull (assoc (lit "command") items) in
  unknown_to recognized_minimal command = true ->
  Minimal.on_message repr ws (Decoded (JObj items)) s
  = (Val tt,
     set_outbox
       (outbox s ++ [sent ws "error"
          [("error", JStr (lit "Unknown command: "
                           ++ Minimal.format repr command))]]) s).
Proof.
  intros command H. subst command. unfold recognized_minimal in H.
  repeat (apply unknown_to_cons in H; destruct H as [? H]).
  run_handler.
  repeat match goal with
  | H : is_command _ _ = false |- _ => rewrite H; clear H
  end.
  reflexivity.
Qed.

End Dispatch.

(** C5 (the code departs from the claim).  On the command [foo] the full
    service sends nothing: the turn returns, the outbox and the set of
    clients are as before, and a [get_status] that follows on the same
    connection is answered, so the connection stays open but no [error]
    event names the command.  The minimal service does answer with the
    [error] event [Unknown command: foo]. *)
Theorem unknown_command_foo (repr : json -> str) (s : service) (ws : conn)
    (ggwave_success : bool) :
  let foo := command_message "foo" None in
  let s' := exec (on_message ws foo ggwave_success) s in
  (on_message ws foo ggwave_success s).1 = Val tt
  /\ outbox s' = outbox s
  /\ websocket_clients s' = websocket_clients s
  /\ outbox (exec (on_message ws (command_message "get_status" None)
                     ggwave_success) s')
     = outbox s ++ [sent ws "status" (status_payload s)]
  /\ Minimal.on_message repr ws foo s
     = (Val tt,
        set_outbox
          (outbox s ++ [sent ws "error"
                          [("error", jstr "Unknown command: foo")]]) s).
Proof.
  intros foo s'.
  assert (Hfull : on_message ws foo ggwave_success s
                  = (Val tt,
                     set_last_message_data
                       (<[ws := JObj [(lit "command", jstr "foo")]]>
                          (last_message_data s)) s)).
  { apply unknown_command_ignored. vm_compute. reflexivity. }
  assert (Hmin : Minimal.on_message repr ws foo s
                 = (Val tt,
                    set_outbox
                      (outbox s ++ [sent ws "error"
                         [("error",
                           JStr (lit "Unknown command: "
                                 ++ Minimal.format repr (jstr "foo")))]])
                      s)).
  { apply (minimal_unknown_command repr s ws [(lit "command", jstr "foo")]).
    vm_compute. reflexivity. }
  subst s'. unfold exec. rewrite Hfull, Hmin. cbn [fst snd].
  split; [reflexivity|]. split; [reflexivity|]. split; [reflexivity|].
  split; [|reflexivity].
  run_handler. reflexivity.
Qed.

(** C6 (the code departs from the claim).  On a message [json.loads]
    rejects, the full service logs and returns: nothing is sent and no
    attribute changes, so the handler does not crash, but the connection
    gets no [error] event.  The minimal service sends the [error] event
    [Invalid JSON]. *)
Theorem malformed_input_full_service_silent (repr : json -> str)
    (s : service) (ws : conn) (msg : str) (ggwave_success : bool) :
  on_message ws (Malformed msg) ggwave_success s = (Val tt, s)
  /\ Minimal.on_message repr ws (Malformed msg) s
     = (Val tt,
        set_outbox
          (outbox s ++ [sent ws "error" [("error", jstr "Invalid JSON")]])
          s).
Proof. split; reflexivity. Qed.

(** ** The listening commands and the status *)

(** C7, counterexample.  On a started service a [get_status] issued right
    after [stop_listening] reports [listening] as true. *)
Lemma status_after_stop_listening_is_true :
  (run (started (lit "cpu") true true)
     [Connect 1;
      Receive 1 (command_message "stop_listening" None) true;
      Receive 1 (command_message "get_status" None) true]
   ≫= fun s => last (outbox s) ≫= listening_reported)
  = Some (JBool true).
Proof. vm_compute. reflexivity. Qed.

(** C7, as amended.  [start_listening] and [stop_listening] are only
    acknowledged: the response [listening_started] (or
    [listening_stopped]) with status [ok] is sent and the [running] flag
    is as before; a [get_status] that follows reports [listening] as that
    flag, whichever of the two commands came before it.  The minimal
    service always reports [listening] as false. *)
Theorem listening_commands_only_acknowledge (repr : json -> str)
    (s : service) (ws : conn) (g1 g2 : bool) (start : bool) :
  let command := if start then "start_listening" else "stop_listening" in
  let ack := if start then "listening_started" else "listening_stopped" in
  let s' := exec (on_message ws (command_message command None) g1) s in
  let s'' := exec (on_message ws (command_message "get_status" None) g2) s' in
  running s' = running s
  /\ outbox s' = outbox s ++ [sent ws ack [("status", jstr "ok")]]
  /\ outbox s'' = outbox s' ++ [sent ws "status" (status_payload s)]
  /\ listening_reported (sent ws "status" (status_payload s))
     = Some (JBool (running s))
  /\ outbox (exec (Minimal.on_message repr ws
                     (command_message "get_status" None)) s')
     = outbox s' ++ [sent ws "status"
                       [("listening", JBool false); ("device", jstr "cpu");
                        ("models_loaded", JBool false);
                        ("service_type", jstr "minimal")]].
Proof.
  destruct start; cbn zeta; run_handler; repeat split; reflexivity.
Qed.

(** ** Empty text *)

Section EmptyText.

Variables (s : service) (ws : conn) (ggwave_success : bool).

(** C10.  A [synthesize_speech] or [send_ggwave] command whose payload is
    absent, or has no text, or has the empty text, is silently ignored by
    the full service: the turn returns, nothing is sent, nothing is
    enqueued and no task is made. *)
Theorem empty_text_is_ignored (command : string) (payload : option json) :
  command = "synthesize_speech" \/ command = "send_ggwave" ->
  payload = None
  \/ (exists p, payload = Some (JObj p)
      /\ (assoc (lit "text") p = None
          \/ assoc (lit "text") p = Some (jstr ""))) ->
  let r := on_message ws (command_message command payload) ggwave_success s in
  r.1 = Val tt
  /\ outbox r.2 = outbox s
  /\ tts_queue r.2 = tts_queue s
  /\ tasks r.2 = tasks s.
Proof.
  intros Hc Hp.
  destruct Hc as [-> | ->];
  destruct Hp as [-> | (p & -> & [Ht | Ht])];
  cbn zeta; run_handler; rewrite ?Ht; cbn; repeat split; reflexivity.
Qed.

End EmptyText.

(** A [synthesize_speech] command with the empty text, on a started
    service. *)
Lemma empty_text_is_ignored_witness :
  let s := started (lit "cpu") true true in
  let r := on_message 1
             (command_message "synthesize_speech"
                (Some (JObj [(lit "text", jstr "")]))) true s in
  r.1 = Val tt /\ outbox r.2 = outbox s /\ tts_queue r.2 = tts_queue s
  /\ tasks r.2 = tasks s.
Proof.
  apply (empty_text_is_ignored (started (lit "cpu") true true) 1 true
           "synthesize_speech" (Some (JObj [(lit "text", jstr "")]))).
  - left. reflexivity.
  - right. exists [(lit "text", jstr "")]. split; [reflexivity|].
    right. vm_compute. reflexivity.
Defined.

(** ** The synthesis queue *)

Section Queue.

Variables (s : service) (ws : conn).


(** C8.  A [synthesize_speech] command with a text, the synthesis model
    being loaded (the queue is made with [maxsize=10]): when the queue holds
    10 requests the request is not added, no task is made for it, and the
    connection is sent [speech_error]; when it holds fewer the request goes
    to the back of the queue, a driver task is made, and nothing is sent. *)
Theorem enqueue_respects_capacity (ggwave_success : bool)
    (p : list (str * json)) (text : str) :
  tts_model s = true ->
  assoc (lit "text") p = Some (JStr text) ->
  text <> [] ->
  let s' := exec (on_message ws
                    (command_message "synthesize_speech" (Some (JObj p)))
                    ggwave_success) s in
  let r := {| req_websocket := ws; req_text := JStr text;
              req_message_id := default JNull (assoc (lit "messageId") p);
              req_streaming :=
                default (JBool false) (assoc (lit "streaming") p) |} in
  (10 <= length (tts_queue s) ->
     tts_queue s' = tts_queue s
     /\ tasks s' = tasks s
     /\ outbox s' = outbox s ++
          [sent ws "speech_error"
             [("error", jstr "TTS queue full, please try again later")]])
  /\ (length (tts_queue s) < 10 ->
     tts_queue s' = tts_queue s ++ [r]
     /\ tasks s' = tasks s ++ [Created]
     /\ outbox s' = outbox s).
Proof.
  intros Hmodel Htext Hne. cbn zeta.
  run_handler. rewrite Htext. cbn.
  rewrite bool_decide_eq_false_2 by exact Hne. cbn.
  rewrite Hmodel. cbn. rewrite lookup_insert_eq. simpl_handler.
  change (0 <? tts_queue_maxsize)%nat with true. cbn [andb].
  change tts_queue_maxsize with 10.
  destruct (10 <=? length (tts_queue s))%nat eqn:E; cbn;
    [apply Nat.leb_le in E | apply Nat.leb_gt in E];
    (split; intros Hlen; [try lia | try lia]); repeat split; reflexivity.
Qed.

End Queue.


(** The eleventh request that arrives while the first one is with the
    executor finds ten in the queue and is refused. *)
Lemma enqueue_respects_capacity_witness :
  let s := state_after queue_filled in
  let s' := exec (on_message 1 (synthesize "Eleventh request." false) true)
              s in
  length (tts_queue s) = 10
  /\ tts_queue s' = tts_queue s
  /\ tasks s' = tasks s
  /\ outbox s' = outbox s ++
       [sent 1 "speech_error"
          [("error", jstr "TTS queue full, please try again later")]].
Proof.
  split; [vm_compute; reflexivity|].
  refine (proj1 (enqueue_respects_capacity (state_after queue_filled) 1 true
                   [(lit "text", jstr "Eleventh request.")]
                   (lit "Eleventh request.") _ _ _) _).
  - vm_compute. reflexivity.
  - vm_compute. reflexivity.
  - vm_compute. discriminate.
  - vm_compute. repeat constructor.
Defined.

(** ** The driver loop is single-flight *)

(** A step that leaves the flag, the current id and the tasks alone. *)
Ltac same_driver :=
  intros ?; split; [reflexivity|]; split;
    [reflexivity | exists 0; cbn; now rewrite app_nil_r].

Lemma quiet_step_refl s : quiet_step s s.
Proof. revert s. same_driver. Qed.

Lemma quiet_step_trans s1 s2 s3 :
  quiet_step s1 s2 -> quiet_step s2 s3 -> quiet_step s1 s3.
Proof.
  intros (H1 & I1 & n & Hn) (H2 & I2 & m & Hm).
  split; [congruence|]. split; [congruence|].
  exists (n + m). rewrite Hm, Hn, <- app_assoc, replicate_add. reflexivity.
Qed.

Lemma quiet_ret {A} (a : A) : quiet (mret a).
Proof. intros s. apply quiet_step_refl. Qed.

Lemma quiet_raise {A} e : quiet (@raise A e).
Proof. intros s. apply quiet_step_refl. Qed.

Lemma quiet_get : quiet get.
Proof. intros s. apply quiet_step_refl. Qed.

Lemma quiet_bind {A B} (m : M A) (f : A -> M B) :
  quiet m -> (forall a, quiet (f a)) -> quiet (m ≫= f).
Proof.
  intros Hm Hf s. unfold mbind, M_bind. specialize (Hm s).
  destruct (m s) as [[a|e] s1] eqn:E; cbn in *; [|exact Hm].
  eapply quiet_step_trans; [exact Hm | apply Hf].
Qed.

Lemma quiet_try {A} (m : M A) (h : exn -> M A) :
  quiet m -> (forall e, quiet (h e)) -> quiet (try_except m h).
Proof.
  intros Hm Hh s. unfold try_except. specialize (Hm s).
  destruct (m s) as [[a|e] s1] eqn:E; cbn in *; [exact Hm|].
  eapply quiet_step_trans; [exact Hm | apply Hh].
Qed.

Lemma quiet_send ws command payload :
  quiet (send_response ws command payload).
Proof. same_driver. Qed.

Lemma quiet_dict_get v key dflt : quiet (dict_get v key dflt).
Proof. destruct v; first [apply quiet_ret | apply quiet_raise]. Qed.

Lemma quiet_create_task : quiet create_task.
Proof.
  intros s. split; [reflexivity|]. split; [reflexivity|]. now exists 1.
Qed.

Lemma quiet_put_nowait r : quiet (put_nowait r).
Proof.
  unfold put_nowait. apply quiet_bind; [apply quiet_get|]. intros s.
  destruct (_ && _); [apply quiet_raise|]. same_driver.
Qed.

Create HintDb quiet.
#[local] Hint Resolve quiet_ret quiet_raise quiet_get quiet_send
  quiet_dict_get quiet_create_task quiet_put_nowait : quiet.

Ltac quiet_tac :=
  repeat first
    [ progress auto with quiet
    | apply quiet_bind; [|intros ?]
    | apply quiet_try; [|intros ?]
    | match goal with
      | |- quiet (if ?b then _ else _) => destruct b
      | |- quiet (match ?x with _ => _ end) => destruct x
      | |- quiet (modify _) => same_driver
      end ].

Lemma quiet_slice_for_log text : quiet (slice_for_log text).
Proof. destruct text; first [apply quiet_ret | apply quiet_raise]. Qed.

#[local] Hint Resolve quiet_slice_for_log : quiet.

Lemma quiet_handle_tts_request ws text message_id :
  quiet (handle_tts_request ws text message_id).
Proof. unfold handle_tts_request. quiet_tac. Qed.

Lemma quiet_handle_ggwave_request ws text success :
  quiet (handle_ggwave_request ws text success).
Proof. unfold handle_ggwave_request. quiet_tac. Qed.

#[local] Hint Resolve quiet_handle_tts_request quiet_handle_ggwave_request
  : quiet.













Lemma lookup_resumed (l : list task) k t t' :
  l !! k = Some t -> <[k := t']> l !! k = Some t'.
Proof.
  intros H. apply list_lookup_insert_eq. eapply lookup_lt_Some, H.
Qed.

Lemma step_resume s k x t p :
  tasks s !! k = Some t -> resume t x s = Some p ->
  step s (Resume k x) = Some (set_tasks (<[k := p.2]> (tasks p.1)) p.1).
Proof.
  intros Hk Hr. cbn. rewrite Hk. cbn. rewrite Hr. now destruct p.
Qed.






Lemma py_eq_plain id : plain_id id = true -> py_eq id id = true.
Proof.
  destruct id as [|b|n|t|l|l]; cbn; try discriminate; intros _.
  - reflexivity.
  - now destruct b.
  - apply Z.eqb_refl.
  - now apply bool_decide_eq_true_2.
Qed.




(** Outside the runs of the theorem: a [stop_tts] resets the flag (the
    request in flight is superseded and the service counts as idle) while
    the task of that request is still suspended in the executor; the task
    of the next enqueue then passes the guard, and two tasks are inside a
    handler. *)
Lemma stop_tts_lets_a_second_loop_start :
  (fun s => length (requests_in_flight s)) <$>
    run (started (lit "cpu") true true) enqueue_stop_enqueue
  = Some 2.
Proof. vm_compute. reflexivity. Qed.

(** ** Streaming synthesis *)

Lemma run_resume s k x t p events :
  tasks s !! k = Some t -> resume t x s = Some p ->
  run s (Resume k x :: events)
  = run (set_tasks (<[k := p.2]> (tasks p.1)) p.1) events.
Proof.
  intros Hk Hr. cbn [run]. now rewrite (step_resume _ _ _ _ _ Hk Hr).
Qed.

Section Streaming.

Variables (k : nat) (r : request) (total : nat).

(** The [for] loop of the streaming handler, run alone from its head with
    the request not cancelled: each sentence the executor gives audio for
    yields its chunk, the others yield nothing, and [tts_stream_complete]
    follows. *)
Lemma stream_loop_run todo : forall os s t x,
  tasks s !! k = Some t ->
  resume t x s = Some (stream_for r total todo s) ->
  cancelled r s = false ->
  length os = length (spoken todo) ->
  exists s',
    run s (Resume k x :: concat (map (chunk_schedule k) os)) = Some s'
    /\ outbox s' = outbox s ++ delivered r total (spoken todo) os
                     ++ [stream_complete r total]
    /\ tasks s' !! k = Some (StreamEndSent r)
    /\ tts_queue s' = tts_queue s
    /\ is_processing_tts s' = is_processing_tts s
    /\ current_tts_id s' = current_tts_id s.
Proof.
  induction todo as [|[i sentence] todo IH]; intros os s t x Hk Hres Hc Hlen.
  - destruct os; [|discriminate]. cbn [map concat].
    rewrite (run_resume _ _ _ _ _ _ Hk Hres). cbn [run fst snd].
    eexists. split; [reflexivity|]. cbn.
    rewrite (lookup_resumed _ _ _ _ Hk). repeat split; reflexivity.
  - cbn [stream_for] in Hres. rewrite Hc in Hres.
    cbn [spoken List.filter snd] in Hlen |- *.
    destruct (negb (bool_decide (strip sentence = []))) eqn:Hblank;
      [|exact (IH os s t x Hk Hres Hc Hlen)].
    destruct os as [|o os]; [discriminate|]. cbn in Hlen.
    injection Hlen as Hlen.
    cbn [map concat].
    rewrite (run_resume _ _ _ _ _ _ Hk Hres). cbn [fst snd].
    set (s1 := set_tasks (<[k := StreamSynth r total i sentence todo]>
                            (tasks s)) s).
    assert (Hk1 : tasks s1 !! k = Some (StreamSynth r total i sentence todo))
      by apply (lookup_resumed _ _ _ _ Hk).
    destruct o as [audio|]; cbn [chunk_schedule app].
    + (* the audio arrives: chunk, delay, next sentence *)
      rewrite (run_resume s1 k (Speech audio) _ _ _ Hk1 eq_refl).
      cbn [fst snd].
      match goal with |- context [run ?s2 (Resume k Continue :: _)] =>
        set (s2' := s2) end.
      assert (Hk2 : tasks s2' !! k = Some (StreamChunkSent r total todo))
        by apply (lookup_resumed _ _ _ _ Hk1).
      rewrite (run_resume s2' k Continue _ _ _ Hk2 eq_refl).
      cbn [fst snd].
      match goal with |- context [run ?s3 (Resume k Continue :: _)] =>
        set (s3' := s3) end.
      assert (Hk3 : tasks s3' !! k = Some (StreamSleep r total todo))
        by apply (lookup_resumed _ _ _ _ Hk2).
      destruct (IH os s3' _ Continue Hk3 eq_refl Hc Hlen)
        as (s' & Hrun & Hout & Hend & Hq & Hf & Hid).
      exists s'. split; [exact Hrun|]. rewrite Hout.
      repeat split; try assumption.
      cbn. rewrite <- app_assoc. reflexivity.
    + (* nothing arrives: next sentence *)
      destruct (IH os s1 _ NoSpeech Hk1 eq_refl Hc Hlen)
        as (s' & Hrun & Hout & Hend & Hq & Hf & Hid).
      exists s'. split; [exact Hrun|]. rewrite Hout.
      repeat split; assumption.
Qed.

(** None of these events is [tts_stream_error]. *)
Lemma delivered_no_error todo os :
  Forall (fun m => msg_command m <> lit "tts_stream_error")
    (delivered r total todo os ++ [stream_complete r total]).
Proof.
  apply Forall_app. split.
  - unfold delivered. apply Forall_forall. intros m Hm.
    apply list_elem_of_omap in Hm as ([[i sen] [a|]] & _ & Ho);
      [|discriminate].
    cbn in Ho. injection Ho as <-. vm_compute. discriminate.
  - repeat constructor. vm_compute. discriminate.
Qed.

End Streaming.

(** C4, counterexample.  The request [One. Two. Three.] is streamed and the
    executor gives nothing for its first sentence: no [tts_stream_error] is
    sent; the chunk of index 1 and [tts_stream_complete] are. *)
Lemma failed_chunk_is_skipped :
  (fun s => drop 2 (outbox s)) <$>
    run (started (lit "cpu") true true) first_chunk_fails
  = Some [stream_chunk one_two_three 2 1 (lit "Three.") (lit "UklGRg==");
          stream_complete one_two_three 2]
  /\ (fun s => map msg_command (outbox s)) <$>
       run (started (lit "cpu") true true) first_chunk_fails
     = Some [lit "connected"; lit "tts_stream_start";
             lit "tts_stream_chunk"; lit "tts_stream_complete"].
Proof. split; vm_compute; reflexivity. Qed.

(** C4, as amended.  In the streaming handler of a request [r] run by task
    [k]:
    - from the moment [tts_stream_start] is sent, the request not being
      cancelled: a sentence the executor gives no audio for is skipped
      without any event, the sentences that follow are still synthesized,
      each one with audio gets its [tts_stream_chunk], and
      [tts_stream_complete] ends the request; no [tts_stream_error] is
      sent;
    - [tts_stream_error] is what an exception raised after the executor
      returned (reading the file) or after the chunk was sent (removing the
      file) produces; the handler then waits for that send only, the
      sentences left are dropped;
    - once the last event of [r] is sent the loop takes the next request
      from the queue. *)
Theorem streaming_failure_handling (s : service) (k : nat) (r : request)
    (total : nat) :
  (forall todo os,
     tasks s !! k = Some (StreamStartSent r total todo) ->
     cancelled r s = false ->
     length os = length (spoken todo) ->
     exists s',
       run s (Resume k Continue :: concat (map (chunk_schedule k) os))
       = Some s'
       /\ outbox s' = outbox s ++ delivered r total (spoken todo) os
                        ++ [stream_complete r total]
       /\ Forall (fun m => msg_command m <> lit "tts_stream_error")
            (delivered r total (spoken todo) os ++ [stream_complete r total])
       /\ tasks s' !! k = Some (StreamEndSent r))
  /\ (forall t e,
        tasks s !! k = Some t ->
        (exists i sentence todo, t = StreamSynth r total i sentence todo)
        \/ (exists todo, t = StreamChunkSent r total todo) ->
        exists s',
          step s (Resume k (Failure e)) = Some s'
          /\ outbox s' = outbox s ++ [stream_failed r e]
          /\ tasks s' !! k = Some (StreamEndSent r))
  /\ (forall r2 q,
        tasks s !! k = Some (StreamEndSent r) ->
        tts_queue s = r2 :: q ->
        is_processing_tts s = true ->
        plain_id (req_message_id r2) = true ->
        exists s',
          step s (Resume k Continue) = Some s'
          /\ tts_queue s' = q
          /\ current_tts_id s' = req_message_id r2
          /\ tasks s' !! k ≫= in_flight = Some r2).
Proof.
  split; [|split].
  - intros todo os Hk Hc Hlen.
    destruct (stream_loop_run k r total todo os s _ Continue Hk eq_refl Hc Hlen)
      as (s' & Hrun & Hout & Hend & _).
    exists s'. repeat split; try assumption. apply delivered_no_error.
  - intros t e Hk [(i & sen & todo & ->) | (todo & ->)];
      (eexists; split; [apply (step_resume s k (Failure e) _ _ Hk eq_refl)|]);
      cbn; rewrite (lookup_resumed _ _ _ _ Hk); split; reflexivity.
  - intros r2 q Hk Hq Hp Hid.
    eexists. split; [apply (step_resume s k Continue _ _ Hk eq_refl)|].
    unfold back_to_while. rewrite Hq. cbn [while_loop].
    unfold cancelled. cbn [is_processing_tts current_tts_id set_processing
      set_tts_queue]. rewrite Hp, (py_eq_plain _ Hid). cbn [negb orb].
    destruct (truthy (req_streaming r2)); [destruct (req_text r2)|];
      cbn; rewrite (lookup_resumed _ _ _ _ Hk); repeat split; reflexivity.
Qed.

(** The three parts on the request [One. Two. Three.]: nothing for its
    first sentence and audio for the second; the audio file of the first
    sentence cannot be read; and the loop going on to a request that was
    queued meanwhile. *)
Lemma streaming_failure_handling_witness :
  (exists s',
     run (state_after stream_started)
       (Resume 0 Continue
        :: concat (map (chunk_schedule 0) [None; Some (lit "UklGRg==")]))
     = Some s'
     /\ map msg_command (outbox s')
        = [lit "connected"; lit "tts_stream_start"; lit "tts_stream_chunk";
           lit "tts_stream_complete"])
  /\ (exists s',
        step (state_after (stream_started ++ [Resume 0 Continue]))
          (Resume 0 (Failure (OSError (lit "No such file or directory"))))
        = Some s'
        /\ tasks s' !! 0 = Some (StreamEndSent one_two_three))
  /\ (exists s',
        step (state_after stream_fails_with_one_queued) (Resume 0 Continue)
        = Some s'
        /\ tts_queue s' = []).
Proof.
  split; [|split].
  - destruct (proj1 (streaming_failure_handling
                       (state_after stream_started) 0 one_two_three 2)
                one_two_three_sentences [None; Some (lit "UklGRg==")])
      as (s' & Hrun & Hout & _).
    + vm_compute. reflexivity.
    + vm_compute. reflexivity.
    + vm_compute. reflexivity.
    + exists s'. split; [exact Hrun|]. rewrite Hout. vm_compute. reflexivity.
  - destruct (proj1 (proj2 (streaming_failure_handling
                (state_after (stream_started ++ [Resume 0 Continue]))
                0 one_two_three 2))
                (StreamSynth one_two_three 2 0 (lit "One. Two.")
                   [(1, lit "Three.")])
                (OSError (lit "No such file or directory")))
      as (s' & Hstep & _ & Hk).
    + vm_compute. reflexivity.
    + left. eauto.
    + exists s'. split; assumption.
  - destruct (proj2 (proj2 (streaming_failure_handling
                (state_after stream_fails_with_one_queued)
                0 one_two_three 2))
                {| req_websocket := 1; req_text := jstr "Second request.";
                   req_message_id := JNull; req_streaming := JBool false |}
                [])
      as (s' & Hstep & Hq & _).
    + vm_compute. reflexivity.
    + vm_compute. reflexivity.
    + vm_compute. reflexivity.
    + reflexivity.
    + exists s'. split; assumption.
Defined.

(** C2, counterexample.  The splitter joins [One.] with [Two.]: a fragment
    shorter than 20 characters is merged into the one that follows it, so
    the text has two sentences, not three. *)
Lemma one_two_three_is_two_sentences :
  let sentences :=
    Sentences.split_into_sentences (max_sentence_length default_config)
      (lit "One. Two. Three.") in
  sentences = [lit "One. Two."; lit "Three."] /\ length sentences <> 3.
Proof. vm_compute. split; [reflexivity | discriminate]. Qed.

(** C2, as amended.  The streaming request [One. Two. Three.], with audio
    for every sentence, is answered by [tts_stream_start] with
    [total_sentences] 2, then the chunk of index 0 for [One. Two.] with
    [is_final] false, then the chunk of index 1 for [Three.] with
    [is_final] true, then [tts_stream_complete]; the task then returns. *)
Theorem scenario_B_events (a0 a1 : str) :
  (fun s => (outbox s, tasks s)) <$>
    run (started (lit "cpu") true true)
      (stream_started
       ++ Resume 0 Continue
          :: concat (map (chunk_schedule 0) [Some a0; Some a1])
       ++ [Resume 0 Continue])
  = Some
      ([sent 1 "connected"
          [("message", jstr "Connected to Ally Speech Service");
           ("version", jstr "1.0.0")];
        sent 1 "tts_stream_start"
          [("total_sentences", jnat 2);
           ("text", jstr "One. Two. Three.");
           ("message_id", JNull)];
        sent 1 "tts_stream_chunk"
          [("audio_data", JStr a0); ("text", jstr "One. Two.");
           ("chunk_index", jnat 0); ("total_chunks", jnat 2);
           ("is_final", JBool false); ("message_id", JNull)];
        sent 1 "tts_stream_chunk"
          [("audio_data", JStr a1); ("text", jstr "Three.");
           ("chunk_index", jnat 1); ("total_chunks", jnat 2);
           ("is_final", JBool true); ("message_id", JNull)];
        sent 1 "tts_stream_complete"
          [("text", jstr "One. Two. Three."); ("total_chunks", jnat 2);
           ("message_id", JNull)]],
       [Returned]).
Proof. vm_compute. reflexivity. Qed.

(** ** The segmentation buffer *)

Section Segmentation.
Import Capture.

Variable c : config.

(** What [_process_speech_buffer] hands over has at least
    [min_speech_chunks] frames and is the whole buffer; what it leaves is
    the buffer as it was, or nothing. *)
Lemma process_speech_buffer_spec b :
  let '(b', u) := process_speech_buffer c b in
  (speech_buffer b' = speech_buffer b \/ speech_buffer b' = [])
  /\ (forall x, u = Some x ->
        frame_count x = length (speech_buffer b)
        /\ min_speech_chunks c <= frame_count x)
  /\ (min_speech_chunks c <= max_speech_chunks c ->
      0 < max_speech_chunks c ->
      length (speech_buffer b') < max_speech_chunks c).
Proof.
  unfold process_speech_buffer.
  destruct (min_speech_chunks c <=? length (speech_buffer b))%nat eqn:Hmin;
    [apply Nat.leb_le in Hmin | apply Nat.leb_gt in Hmin].
  - destruct (_ || _) eqn:Hflush.
    + destruct (length (audio_queue b) <? 3)%nat;
        [destruct (audio_queue_maxsize <=? length (audio_queue b))%nat|];
        cbn; (split; [now right|]); (split; [|intros; assumption]);
        intros x Hx; try discriminate.
      injection Hx as <-. cbn. split; [reflexivity | exact Hmin].
    + apply orb_false_iff in Hflush as [_ Hmax%Nat.leb_gt].
      split; [now left|]. split; [discriminate|]. intros; exact Hmax.
  - split; [now left|]. split; [discriminate|]. intros. lia.
Qed.

(** Every utterance handed over has at least [min_speech_chunks] frames. *)
Lemma run_lower_bound events : forall b,
  Forall (fun u => min_speech_chunks c <= frame_count u)
    (run c b events).2.
Proof.
  induction events as [|e events IH]; intros b; cbn [run]; [constructor|].
  destruct (step c b e) as [b' u] eqn:Hstep.
  specialize (IH b'). destruct (run c b' events) as [b'' us]. cbn [snd] in *.
  apply Forall_app. split; [|exact IH].
  destruct e as [data [| |] |]; cbn in Hstep;
    try (injection Hstep as <- <-; constructor).
  match type of Hstep with process_speech_buffer c ?b0 = _ =>
    pose proof (process_speech_buffer_spec b0) as Hspec end.
  rewrite Hstep in Hspec. destruct Hspec as (_ & Hu & _).
  destruct u as [x|]; [|constructor].
  repeat constructor. now apply Hu.
Qed.

(** With [n] speech frames read since the last silence frame and a buffer
    shorter than [max_speech_chunks + n], no utterance of the rest of the
    run reaches [max_speech_chunks + r] frames, [r] bounding the stretches
    of speech. *)
Lemma run_upper_bound r events : forall b n,
  min_speech_chunks c <= max_speech_chunks c ->
  0 < max_speech_chunks c ->
  length (speech_buffer b) < max_speech_chunks c + n ->
  n <= r ->
  speech_runs_within r n events = true ->
  Forall (fun u => frame_count u < max_speech_chunks c + r)
    (run c b events).2.
Proof.
  induction events as [|e events IH]; intros b n Hmm Hmax Hlen Hn Hruns;
    cbn [run]; [constructor|].
  destruct (step c b e) as [b' u] eqn:Hstep.
  destruct e as [data [| |] |]; cbn in Hstep;
    cbn [speech_runs_within] in Hruns.
  - (* a speech frame *)
    injection Hstep as <- <-.
    apply andb_prop in Hruns as [Hr%Nat.leb_le Hruns].
    match goal with |- context [run c ?b1 events] =>
      specialize (IH b1 (S n) Hmm Hmax) end.
    cbn [speech_buffer] in IH. rewrite length_app in IH. cbn in IH.
    specialize (IH ltac:(lia) Hr Hruns).
    destruct (run c _ events) as [b'' us]. exact IH.
  - (* a silence frame *)
    match type of Hstep with process_speech_buffer c ?b0 = _ =>
      pose proof (process_speech_buffer_spec b0) as Hspec end.
    rewrite Hstep in Hspec. cbn [speech_buffer] in Hspec.
    destruct Hspec as (_ & Hu & Hleft).
    specialize (IH b' 0 Hmm Hmax ltac:(specialize (Hleft Hmm Hmax); lia)
                  ltac:(lia) Hruns).
    destruct (run c b' events) as [b'' us]. cbn [snd] in *.
    apply Forall_app. split; [|exact IH].
    destruct u as [x|]; [|constructor].
    repeat constructor. destruct (Hu x eq_refl) as [-> _]. lia.
  - (* the classifier raises *)
    injection Hstep as <- <-. specialize (IH b n Hmm Hmax Hlen Hn Hruns).
    destruct (run c b events) as [b'' us]. exact IH.
  - (* the recognition thread takes an utterance *)
    injection Hstep as <- <-.
    match goal with |- context [run c ?b1 events] =>
      specialize (IH b1 n Hmm Hmax Hlen Hn Hruns) end.
    destruct (run c _ events) as [b'' us]. exact IH.
Qed.

End Segmentation.

(** C3, counterexample.  With the default thresholds (at least 10 frames,
    at most 100), 101 speech frames followed by one silence frame give one
    utterance of 101 frames. *)
Lemma long_speech_run_exceeds_max :
  map Capture.frame_count
    (Capture.emitted Capture.default_config (speech_then_silence 101))
  = [101]
  /\ Capture.max_speech_chunks Capture.default_config = 100.
Proof. split; vm_compute; reflexivity. Qed.

(** C3, as amended.  For every sequence of frames (and of reads by the
    recognition thread), every utterance handed to the recognition queue
    has at least [min_speech_chunks] frames.  Its length is not bounded by
    [max_speech_chunks]: the buffer is looked at on silence frames only,
    so, the thresholds being such that [min_speech_chunks] is at most
    [max_speech_chunks] and this is positive, an utterance has fewer than
    [max_speech_chunks + r] frames when no more than [r] speech frames
    ever come without a silence frame between them. *)
Theorem utterance_frame_bounds (c : Capture.config)
    (events : list Capture.event) :
  Forall (fun u => Capture.min_speech_chunks c <= Capture.frame_count u)
    (Capture.emitted c events)
  /\ forall r,
       Capture.min_speech_chunks c <= Capture.max_speech_chunks c ->
       0 < Capture.max_speech_chunks c ->
       Capture.speech_runs_within r 0 events = true ->
       Forall (fun u => Capture.frame_count u < Capture.max_speech_chunks c + r)
         (Capture.emitted c events).
Proof.
  split; [apply run_lower_bound|].
  intros r Hmm Hmax Hruns.
  apply (run_upper_bound c r events Capture.initial 0); cbn; auto; lia.
Qed.

(** Twelve speech frames and two silence frames, with the default
    thresholds. *)
Lemma utterance_frame_bounds_witness :
  let events :=
    speech_then_silence 12 ++ [Capture.Frame [] Capture.IsSilence] in
  Forall (fun u => Capture.frame_count u < 100 + 12)
    (Capture.emitted Capture.default_config events)
  /\ map Capture.frame_count (Capture.emitted Capture.default_config events)
     = [12].
Proof.
  split; [|vm_compute; reflexivity].
  apply (proj2 (utterance_frame_bounds Capture.default_config
                  (speech_then_silence 12
                   ++ [Capture.Frame [] Capture.IsSilence])) 12).
  - cbn. lia.
  - cbn. lia.
  - vm_compute. reflexivity.
Defined.

(** * Further properties of the code *)

(** ** The full service answers at most once, and never with [error] *)

Lemma silent_ret {A} (a : A) : silent (mret a).
Proof. intros s. reflexivity. Qed.

Lemma silent_raise {A} e : silent (@raise A e).
Proof. intros s. reflexivity. Qed.

Lemma silent_get : silent get.
Proof. intros s. reflexivity. Qed.

Lemma silent_bind {A B} (m : M A) (f : A -> M B) :
  silent m -> (forall a, silent (f a)) -> silent (m ≫= f).
Proof.
  intros Hm Hf s. unfold mbind, M_bind. specialize (Hm s).
  destruct (m s) as [[a|e] s1]; cbn in *; [|exact Hm].
  rewrite <- Hm. apply Hf.
Qed.

Lemma silent_dict_get v key dflt : silent (dict_get v key dflt).
Proof. destruct v; intros ?; reflexivity. Qed.

Lemma silent_slice_for_log text : silent (slice_for_log text).
Proof. destruct text; intros ?; reflexivity. Qed.

Lemma silent_put_nowait r : silent (put_nowait r).
Proof.
  intros s. unfold put_nowait, mbind, M_bind, get. cbn.
  destruct (_ && _); reflexivity.
Qed.

Lemma silent_create_task : silent create_task.
Proof. intros s. reflexivity. Qed.

Lemma silent_answers {A} ws (m : M A) : silent m -> answers_once ws m.
Proof. intros H s. left. apply H. Qed.

Lemma answers_bind {A B} ws (m : M A) (f : A -> M B) :
  silent m -> (forall a, answers_once ws (f a)) ->
  answers_once ws (m ≫= f).
Proof.
  intros Hm Hf s. unfold mbind, M_bind. specialize (Hm s).
  destruct (m s) as [[a|e] s1]; cbn in *; [|now left].
  rewrite <- Hm. apply Hf.
Qed.

Lemma answers_try {A} ws (m : M A) (h : exn -> M A) :
  answers_once ws m -> (forall e, answers_once ws (h e)) ->
  answers_once ws (try_except m h).
Proof.
  intros Hm Hh s. unfold try_except. specialize (Hm s).
  destruct (m s) as [[a|e] s1]; cbn in *; [exact Hm|].
  destruct Hm as [Hm | (a & x & Hv & _)]; [|discriminate].
  rewrite <- Hm. apply Hh.
Qed.

Lemma answers_send ws command payload :
  lit command <> lit "error" ->
  answers_once ws (send_response ws command payload).
Proof.
  intros Hc s. right. exists tt, (sent ws command payload).
  repeat split. exact Hc.
Qed.

Create HintDb handlers.
#[local] Hint Resolve silent_ret silent_raise silent_get silent_dict_get
  silent_slice_for_log silent_put_nowait silent_create_task : handlers.

Ltac silent_tac :=
  repeat first
    [ progress auto with handlers
    | apply silent_bind; [|intros ?]
    | match goal with
      | |- silent (if ?b then _ else _) => destruct b
      | |- silent (match ?x with _ => _ end) => destruct x
      | |- silent (modify _) => intros ?; reflexivity
      end ].

Ltac answers_tac :=
  repeat first
    [ apply answers_send; vm_compute; discriminate
    | apply answers_try; [|intros ?]
    | apply answers_bind; [solve [silent_tac]|intros ?]
    | match goal with
      | |- answers_once _ (if ?b then _ else _) => destruct b
      | |- answers_once _ (match ?x with _ => _ end) => destruct x
      end
    | apply silent_answers; solve [silent_tac] ].

Lemma answers_handle_tts_request ws text message_id :
  answers_once ws (handle_tts_request ws text message_id).
Proof. unfold handle_tts_request. answers_tac. Qed.

Lemma answers_handle_stop_tts ws : answers_once ws (handle_stop_tts ws).
Proof. unfold handle_stop_tts. answers_tac. Qed.

Lemma answers_handle_ggwave_request ws text success :
  answers_once ws (handle_ggwave_request ws text success).
Proof. unfold handle_ggwave_request. answers_tac. Qed.

Lemma answers_handle_websocket_message ws message ggwave_success :
  answers_once ws (handle_websocket_message ws message ggwave_success).
Proof.
  unfold handle_websocket_message, json_loads.
  apply answers_try; [|intros; apply silent_answers, silent_ret].
  apply answers_bind; [destruct message; auto with handlers|]. intros data.
  do 2 (apply answers_bind; [auto with handlers|]; intros ?).
  apply answers_bind; [intros ?; reflexivity|]. intros _.
  repeat match goal with
  | |- answers_once _ (if is_command ?c ?n then _ else _) =>
      destruct (is_command c n)
  end;
  first [ apply answers_handle_stop_tts
        | answers_tac;
          first [ apply answers_handle_tts_request
                | apply answers_handle_ggwave_request ] ].
Qed.

(** The message handler of the full service returns, whatever the
    message. *)
Lemma handle_websocket_message_returns ws message ggwave_success s :
  (handle_websocket_message ws message ggwave_success s).1 = Val tt.
Proof.
  unfold handle_websocket_message, try_except.
  match goal with |- context [match ?b s with _ => _ end] =>
    destruct (b s) as [[[]|e] s1] end; reflexivity.
Qed.

(** X1.  Whatever the message, one turn of [handle_client] of the full
    service returns normally (no exception leaves
    [_handle_websocket_message], so the [except] clause of [handle_client]
    never sends), and it sends at most one response, to the connection the
    message came from, which is never the [error] event. *)
Theorem full_service_answers_at_most_once (ws : conn) (message : inbound)
    (ggwave_success : bool) (s : service) :
  (on_message ws message ggwave_success s).1 = Val tt
  /\ exists l,
       outbox (exec (on_message ws message ggwave_success) s)
       = outbox s ++ l
       /\ length l <= 1 /\ Forall (to_sender ws) l.
Proof.
  assert (Heq : on_message ws message ggwave_success s
                = handle_websocket_message ws message ggwave_success s).
  { unfold on_message, try_except.
    pose proof (handle_websocket_message_returns ws message ggwave_success s)
      as Hr.
    destruct (handle_websocket_message ws message ggwave_success s)
      as [[a|e] s1]; [reflexivity | discriminate]. }
  unfold exec. rewrite Heq.
  split; [apply handle_websocket_message_returns|].
  destruct (answers_handle_websocket_message ws message ggwave_success s)
    as [Hs | (a & x & _ & Hx & Hto)].
  - exists []. rewrite Hs, app_nil_r. repeat split; [cbn; lia | constructor].
  - exists [x].
    repeat split; [exact Hx | cbn; lia | repeat constructor; apply Hto].
Qed.

(** ** Synthesis without a model *)

(** X2.  When no synthesis model was loaded, a [synthesize_speech] command
    with any text that counts as true is answered with [speech_error]
    ([TTS model not loaded]); the request is not queued and no driver task
    is made. *)
Theorem synthesis_without_model (s : service) (ws : conn)
    (ggwave_success : bool) (p : list (str * json)) (text : json) :
  tts_model s = false ->
  assoc (lit "text") p = Some text ->
  truthy text = true ->
  let s' := exec (on_message ws
                    (command_message "synthesize_speech" (Some (JObj p)))
                    ggwave_success) s in
  outbox s' = outbox s ++ [sent ws "speech_error"
                             [("error", jstr "TTS model not loaded")]]
  /\ tts_queue s' = tts_queue s
  /\ tasks s' = tasks s.
Proof.
  intros Hmodel Htext Htruthy. cbn zeta.
  run_handler. rewrite Htext. cbn. rewrite Htruthy. cbn.
  rewrite Hmodel. cbn. repeat split; reflexivity.
Qed.

(** The service started without a synthesis model, and a request for it. *)
Lemma synthesis_without_model_witness :
  let s := started (lit "cpu") true false in
  let s' := exec (on_message 1 (synthesize "Hello." false) true) s in
  outbox s' = [sent 1 "speech_error"
                 [("error", jstr "TTS model not loaded")]]
  /\ tts_queue s' = [] /\ tasks s' = [].
Proof.
  apply (synthesis_without_model (started (lit "cpu") true false) 1 true
           [(lit "text", jstr "Hello.")] (jstr "Hello.")).
  - reflexivity.
  - vm_compute. reflexivity.
  - vm_compute. reflexivity.
Defined.

(** ** What the handlers and the driver tasks keep *)

Lemma preserves_ret {A} I (a : A) : preserves I (mret a).
Proof. intros s H. exact H. Qed.

Lemma preserves_raise {A} I e : preserves I (@raise A e).
Proof. intros s H. exact H. Qed.

Lemma preserves_get I : preserves I get.
Proof. intros s H. exact H. Qed.

Lemma preserves_bind {A B} I (m : M A) (f : A -> M B) :
  preserves I m -> (forall a, preserves I (f a)) -> preserves I (m ≫= f).
Proof.
  intros Hm Hf s Hs. unfold mbind, M_bind. specialize (Hm s Hs).
  destruct (m s) as [[a|e] s1]; cbn in *; [|exact Hm].
  now apply Hf.
Qed.

Lemma preserves_try {A} I (m : M A) (h : exn -> M A) :
  preserves I m -> (forall e, preserves I (h e)) ->
  preserves I (try_except m h).
Proof.
  intros Hm Hh s Hs. unfold try_except. specialize (Hm s Hs).
  destruct (m s) as [[a|e] s1]; cbn in *; [exact Hm|].
  now apply Hh.
Qed.

Lemma preserves_dict_get I v key dflt : preserves I (dict_get v key dflt).
Proof. destruct v; intros ? H; exact H. Qed.

Lemma preserves_slice_for_log I text : preserves I (slice_for_log text).
Proof. destruct text; intros ? H; exact H. Qed.

#[local] Hint Resolve preserves_ret preserves_raise preserves_get
  preserves_dict_get preserves_slice_for_log : handlers.

(** The handler code is taken apart down to its [modify] steps, which
    [tac] is to settle. *)
Ltac preserves_tac tac :=
  repeat first
    [ progress auto with handlers
    | apply preserves_bind; [|intros ?]
    | apply preserves_try; [|intros ?]
    | match goal with
      | |- preserves _ (if ?b then _ else _) => destruct b
      | |- preserves _ (match ?x with _ => _ end) => destruct x
      | |- preserves _ (modify _) => tac
      | |- preserves _ (send_response _ _ _) => unfold send_response; tac
      | |- preserves _ create_task => unfold create_task; tac
      end ].

Lemma preserves_on_message I ws message ggwave_success :
  (forall s o, I s -> I (set_outbox o s)) ->
  (forall s m, I s -> I (set_last_message_data m s)) ->
  (forall s t, I s -> I (set_tasks t s)) ->
  (forall s, I s -> I (set_processing false JNull s)) ->
  (forall s, I s -> I (set_tts_queue [] s)) ->
  (forall r, preserves I (put_nowait r)) ->
  preserves I (on_message ws message ggwave_success).
Proof.
  intros Ho Hl Ht Hp Hq Hput.
  unfold on_message, handle_websocket_message, json_loads,
    handle_tts_request, handle_stop_tts, handle_ggwave_request.
  preserves_tac ltac:(intros ? ?; cbn; auto).
Qed.

(** The driver's own steps. *)
Lemma driver_frame_refl s : driver_frame s s.
Proof.
  repeat split; [exists 0; reflexivity | exists []; now rewrite app_nil_r].
Qed.

Lemma driver_frame_trans s1 s2 s3 :
  driver_frame s1 s2 -> driver_frame s2 s3 -> driver_frame s1 s3.
Proof.
  intros (A1 & A2 & A3 & A4 & A5 & [n An] & [l Al])
         (B1 & B2 & B3 & B4 & B5 & [m Bm] & [k Bk]).
  repeat split; try congruence.
  - exists (n + m). rewrite Bm, An, drop_drop. reflexivity.
  - exists (l ++ k). rewrite Bk, Al, app_assoc. reflexivity.
Qed.

Lemma driver_frame_send ws command payload s :
  driver_frame s (send ws command payload s).
Proof.
  repeat split; [exists 0; reflexivity | eexists; reflexivity].
Qed.

Lemma driver_frame_while q s :
  tts_queue s = q -> driver_frame s (while_loop q s).1.
Proof.
  revert s. induction q as [|r q IH]; intros s Hq; cbn [while_loop].
  - repeat split; [exists 0; reflexivity | exists []; now rewrite app_nil_r].
  - assert (Hstep : forall s1,
              driver_frame
                (set_processing (is_processing_tts (set_tts_queue q s))
                   (req_message_id r) (set_tts_queue q s)) s1 ->
              driver_frame s s1).
    { intros s1. apply driver_frame_trans.
      repeat split; [exists 1; cbn; now rewrite Hq
                    | exists []; now rewrite app_nil_r]. }
    match goal with
    | |- context [cancelled r ?s1] => destruct (cancelled r s1)
    end.
    + apply Hstep, IH. reflexivity.
    + destruct (truthy (req_streaming r)); [destruct (req_text r)|];
        apply Hstep; cbn [fst stream_error];
        first [apply driver_frame_send | apply driver_frame_refl].
Qed.

Lemma driver_frame_stream_for r total todo s :
  driver_frame s (stream_for r total todo s).1.
Proof.
  induction todo as [|[i sentence] todo IH]; cbn [stream_for].
  - apply driver_frame_send.
  - destruct (cancelled r s); [now apply driver_frame_while|].
    destruct (negb _); [apply driver_frame_refl | exact IH].
Qed.

Lemma driver_frame_resume t x s p :
  resume t x s = Some p -> driver_frame s p.1.
Proof.
  intros H.
  destruct t, x; cbn in H; try discriminate; injection H as <-;
    cbn [fst stream_error speech_error];
    try first [ apply driver_frame_stream_for
              | now apply driver_frame_while
              | apply driver_frame_send
              | apply driver_frame_refl ].
  unfold start_task.
  destruct (is_processing_tts s); [apply driver_frame_refl|].
  destruct (bool_decide _); [apply driver_frame_refl|].
  eapply driver_frame_trans; [|now apply driver_frame_while].
  repeat split; [exists 0; reflexivity | exists []; now rewrite app_nil_r].
Qed.

Lemma driver_frame_step s k x s' :
  step s (Resume k x) = Some s' ->
  exists s1, driver_frame s s1
             /\ exists t, s' = set_tasks (<[k := t]> (tasks s1)) s1.
Proof.
  cbn. destruct (tasks s !! k) as [t|]; [|discriminate]. cbn.
  destruct (resume t x s) as [[s1 t1]|] eqn:Hr; [|discriminate]. cbn.
  intros [= <-]. exists s1.
  split; [exact (driver_frame_resume _ _ _ _ Hr) | eauto].
Qed.

(** ** The synthesis queue stays within its capacity *)

Lemma queue_bound_put_nowait r :
  preserves (fun s => length (tts_queue s) <= tts_queue_maxsize)
    (put_nowait r).
Proof.
  intros s Hs. unfold put_nowait, mbind, M_bind, get.
  cbn [fst snd]. change (0 <? tts_queue_maxsize)%nat with true.
  cbn [andb].
  destruct (tts_queue_maxsize <=? length (tts_queue s))%nat eqn:E;
    [exact Hs|].
  apply Nat.leb_gt in E. unfold modify, set_tts_queue.
  cbn [snd tts_queue]. rewrite length_app. cbn [length]. lia.
Qed.

Lemma queue_bound_step s e s' :
  step s e = Some s' ->
  length (tts_queue s) <= tts_queue_maxsize ->
  length (tts_queue s') <= tts_queue_maxsize.
Proof.
  intros Hstep Hs. destruct e as [ws | ws message g | ws | k x].
  - cbn in Hstep. injection Hstep as <-. exact Hs.
  - cbn in Hstep. injection Hstep as <-. revert Hs.
    apply (preserves_on_message
             (fun s => length (tts_queue s) <= tts_queue_maxsize));
      auto using queue_bound_put_nowait.
    intros; cbn; lia.
  - cbn in Hstep. injection Hstep as <-. exact Hs.
  - apply driver_frame_step in Hstep
      as (s1 & (_ & _ & _ & _ & _ & [n Hn] & _) & t & ->).
    cbn. rewrite Hn, length_drop. lia.
Qed.

(** X3.  Along every run of the event loop (connections, every command,
    [stop_tts] included, and the resumptions of the driver tasks), the
    synthesis queue never holds more than the 10 requests of its
    [maxsize]. *)
Theorem queue_stays_within_capacity (events : list event) :
  forall s s',
    length (tts_queue s) <= tts_queue_maxsize ->
    run s events = Some s' ->
    length (tts_queue s') <= tts_queue_maxsize.
Proof.
  induction events as [|e events IH]; intros s s' Hs Hrun; cbn in Hrun.
  - now injection Hrun as <-.
  - destruct (step s e) as [s1|] eqn:Hstep; [|discriminate]. cbn in Hrun.
    eapply IH; [|exact Hrun]. eapply queue_bound_step; eauto.
Qed.

(** Twelve requests in a row while the first is with the executor. *)
Lemma queue_stays_within_capacity_witness :
  length (tts_queue
            (state_after
               (queue_filled
                ++ [Receive 1 (synthesize "Eleventh request." false) true])))
  <= tts_queue_maxsize.
Proof.
  refine (queue_stays_within_capacity
            (queue_filled
             ++ [Receive 1 (synthesize "Eleventh request." false) true])
            (started (lit "cpu") true true) _ _ _).
  - vm_compute. lia.
  - vm_compute. reflexivity.
Defined.

(** ** The set of clients follows the connections *)




(** ** [stop_tts] and the driver loop *)

Lemma while_loop_stopped q s :
  is_processing_tts s = false -> tts_queue s = q ->
  (while_loop q s).2 = Returned
  /\ outbox (while_loop q s).1 = outbox s
  /\ tts_queue (while_loop q s).1 = []
  /\ tasks (while_loop q s).1 = tasks s.
Proof.
  revert s. induction q as [|r q IH]; intros s Hidle Hq; cbn [while_loop].
  - now repeat split.
  - unfold cancelled. cbn [is_processing_tts set_processing set_tts_queue].
    rewrite Hidle. cbn [negb orb].
    match goal with
    | |- context [while_loop q ?s1] =>
        destruct (IH s1) as (H1 & H2 & H3 & H4); [reflexivity|reflexivity|]
    end.
    now repeat split.
Qed.

(** X5.  A driver loop that comes back from a request after [stop_tts] has
    cleared the processing flag takes every request that was queued in the
    meantime off the queue and sends nothing for any of them: each handler
    returns at its cancellation check, and the task ends. *)
Theorem returning_loop_drops_queue_after_stop (s : service) (k : nat)
    (t : task) :
  is_processing_tts s = false ->
  tasks s !! k = Some t ->
  at_end t = true ->
  exists s',
    step s (Resume k Continue) = Some s'
    /\ outbox s' = outbox s
    /\ tts_queue s' = []
    /\ tasks s' = <[k := Returned]> (tasks s).
Proof.
  intros Hidle Hk Hend.
  destruct (while_loop_stopped (tts_queue s) s Hidle eq_refl)
    as (H1 & H2 & H3 & H4).
  assert (Hr : resume t Continue s = Some (back_to_while s))
    by (destruct t; try discriminate; reflexivity).
  eexists. split; [exact (step_resume _ _ _ _ _ Hk Hr)|].
  unfold back_to_while. cbn. rewrite H1, H4. now repeat split.
Qed.

(** The second request is in the queue when the loop of the first comes
    back after [stop_tts]; it is dropped, and its own task then finds the
    queue empty. *)
Lemma returning_loop_drops_queue_after_stop_witness :
  let s := state_after stop_then_enqueue in
  length (tts_queue s) = 1
  /\ exists s',
       step s (Resume 0 Continue) = Some s'
       /\ outbox s' = outbox s
       /\ tts_queue s' = []
       /\ tasks s' = <[0 := Returned]> (tasks s).
Proof.
  split; [vm_compute; reflexivity|].
  apply (returning_loop_drops_queue_after_stop
           (state_after stop_then_enqueue) 0
           (SingleSent {| req_websocket := 1;
                          req_text := jstr "First request.";
                          req_message_id := JNull;
                          req_streaming := JBool false |})).
  - vm_compute. reflexivity.
  - vm_compute. reflexivity.
  - reflexivity.
Defined.

Lemma run_receive s ws message ggwave_success events :
  run s (Receive ws message ggwave_success :: events)
  = run (exec (on_message ws message ggwave_success) s) events.
Proof. reflexivity. Qed.

Lemma stop_tts_when_processing s ws ggwave_success :
  is_processing_tts s = true ->
  exec (on_message ws (command_message "stop_tts" None) ggwave_success) s
  = set_outbox (outbox s ++ [stopped ws])
      (set_processing false JNull
         (set_tts_queue []
            (set_last_message_data
               (<[ws := JObj [(lit "command", jstr "stop_tts")]]>
                  (last_message_data s)) s))).
Proof. intros H. run_handler. rewrite H. reflexivity. Qed.

(** X6.  [stop_tts] while a sentence of a streaming request is with the
    executor does not keep the chunk of that sentence back: the
    cancellation is only looked at where the [for] loop starts a sentence.
    The chunk is sent after [tts_stopped]; then, if sentences are left, the
    request ends with no further event, and if that was the last sentence
    [tts_stream_complete] is sent all the same. *)
Theorem stop_during_synthesis_of_sentence (s : service) (ws : conn)
    (ggwave_success : bool) (k : nat) (r : request) (total i : nat)
    (sentence audio : str) (todo : list (nat * str)) :
  is_processing_tts s = true ->
  tasks s !! k = Some (StreamSynth r total i sentence todo) ->
  exists s',
    run s [Receive ws (command_message "stop_tts" None) ggwave_success;
           Resume k (Speech audio); Resume k Continue; Resume k Continue]
    = Some s'
    /\ outbox s'
       = outbox s ++ [stopped ws; stream_chunk r total i sentence audio]
         ++ (if todo is [] then [stream_complete r total] else [])
    /\ tasks s' !! k
       = Some (if todo is [] then StreamEndSent r else Returned).
Proof.
  intros Hflag Hk.
  assert (Hlen : k < length (tasks s)) by (eapply lookup_lt_Some, Hk).
  rewrite run_receive.
  set (s1 := exec _ s).
  assert (H1 : is_processing_tts s1 = false /\ tasks s1 = tasks s
               /\ outbox s1 = outbox s ++ [stopped ws])
    by (subst s1; rewrite (stop_tts_when_processing _ _ _ Hflag);
        now repeat split).
  clearbody s1. destruct H1 as (F1 & T1 & O1).
  erewrite (run_resume s1 k (Speech audio));
    [|rewrite T1; exact Hk|reflexivity].
  set (s2 := set_tasks _ _).
  assert (H2 : is_processing_tts s2 = false
               /\ tasks s2 = <[k := StreamChunkSent r total todo]> (tasks s)
               /\ outbox s2 = outbox s ++ [stopped ws;
                      stream_chunk r total i sentence audio])
    by (subst s2; cbn; rewrite F1, T1, O1, <- app_assoc; now repeat split).
  clearbody s2. clear s1 F1 T1 O1. destruct H2 as (F2 & T2 & O2).
  erewrite (run_resume s2 k Continue);
    [|rewrite T2; apply list_lookup_insert_eq; exact Hlen|reflexivity].
  set (s3 := set_tasks _ _).
  assert (H3 : is_processing_tts s3 = false
               /\ tasks s3 = <[k := StreamSleep r total todo]> (tasks s)
               /\ outbox s3 = outbox s2)
    by (subst s3; cbn; rewrite F2, T2, list_insert_insert_eq;
        now repeat split).
  clearbody s3. destruct H3 as (F3 & T3 & O3). rewrite <- O3 in O2.
  clear s2 F2 T2 O3.
  erewrite (run_resume s3 k Continue);
    [|rewrite T3; apply list_lookup_insert_eq; exact Hlen|reflexivity].
  eexists. split; [reflexivity|].
  destruct todo as [|[j next] todo]; cbn [stream_for].
  - cbn. rewrite O2, T3, <- app_assoc. split; [reflexivity|].
    apply list_lookup_insert_eq. now rewrite length_insert.
  - unfold cancelled. rewrite F3. cbn [negb orb fst snd].
    destruct (while_loop_stopped (tts_queue s3) s3 F3 eq_refl)
      as (W1 & W2 & _ & W4).
    unfold back_to_while. cbn [tasks set_tasks outbox].
    rewrite W1, W2, W4, O2, T3, app_nil_r. split; [reflexivity|].
    apply list_lookup_insert_eq. now rewrite length_insert.
Qed.

(** [stop_tts] arrives while [One. Two.], the first of two sentences, is
    with the executor. *)
Lemma stop_during_synthesis_of_sentence_witness :
  let s := state_after first_sentence_in_synthesis in
  exists s',
    run s [Receive 1 (command_message "stop_tts" None) true;
           Resume 0 (Speech (lit "UklGRg==")); Resume 0 Continue;
           Resume 0 Continue]
    = Some s'
    /\ outbox s'
       = outbox s ++ [stopped 1;
                      stream_chunk one_two_three 2 0 (lit "One. Two.")
                        (lit "UklGRg==")]
         ++ []
    /\ tasks s' !! 0 = Some Returned.
Proof.
  apply (stop_during_synthesis_of_sentence
           (state_after first_sentence_in_synthesis) 1 true 0 one_two_three
           2 0 (lit "One. Two.") (lit "UklGRg==") [(1, lit "Three.")]).
  - vm_compute. reflexivity.
  - vm_compute. reflexivity.
Defined.

(** ** The queue is served in order *)

(** X7.  Single-shot requests are served first in, first out, by the one
    task that is inside the first: while no [stop_tts] comes in between,
    each request gets exactly one answer on its own connection,
    [speech_generated] when the executor gives audio and [speech_error]
    when it gives none, in the order of arrival; after the last one the
    task ends, the queue is empty and the processing flag is cleared. *)
Theorem queue_is_served_in_order (k : nat) (q : list request) :
  forall (r : request) (os : list (option str)) (s : service),
    is_processing_tts s = true ->
    tasks s !! k = Some (SingleSynth r) ->
    tts_queue s = q ->
    forallb single_shot q = true ->
    length os = S (length q) ->
    exists s',
      run s (concat (map (single_schedule k) os)) = Some s'
      /\ outbox s' = outbox s ++ zip_with single_answer (r :: q) os
      /\ tasks s' !! k = Some Returned
      /\ tts_queue s' = []
      /\ is_processing_tts s' = false
      /\ current_tts_id s' = JNull.
Proof.
  induction q as [|r' q IH]; intros r os s Hflag Hk Hq Hall Hlen;
    (destruct os as [|o os]; [discriminate|]);
    injection Hlen as Hlen; cbn [map concat single_schedule app].
  - destruct os; [|discriminate]. cbn [map concat].
    assert (exists p, resume (SingleSynth r)
                        (if o is Some audio then Speech audio else NoSpeech)
                        s = Some p
                      /\ outbox p.1 = outbox s ++ [single_answer r o]
                      /\ at_end p.2 = true /\ tasks p.1 = tasks s
                      /\ tts_queue p.1 = [] /\ is_processing_tts p.1 = true)
      as (p & Hr & Ho & He & Ht & Hq1 & Hf1)
      by (destruct o; eexists; (split; [reflexivity|]); now repeat split).
    rewrite (run_resume _ _ _ _ _ _ Hk Hr).
    set (s1 := set_tasks _ _).
    assert (Hk1 : tasks s1 !! k = Some p.2)
      by (subst s1; cbn; rewrite Ht; apply (lookup_resumed _ _ _ _ Hk)).
    assert (Hr1 : resume p.2 Continue s1 = Some (back_to_while s1))
      by (destruct p.2; try discriminate; reflexivity).
    rewrite (run_resume _ _ _ _ _ _ Hk1 Hr1). cbn [run].
    eexists. split; [reflexivity|].
    unfold back_to_while. replace (tts_queue s1) with (@nil request)
      by (subst s1; cbn; now rewrite Hq1).
    cbn. rewrite Ho. repeat split; [|exact Hq1].
    apply list_lookup_insert_eq. rewrite length_insert, Ht.
    eapply lookup_lt_Some, Hk.
  - cbn [forallb] in Hall. apply andb_prop in Hall as [Hr' Hall].
    apply andb_prop in Hr' as [Hstream Hid].
    apply negb_true_iff in Hstream.
    assert (exists p, resume (SingleSynth r)
                        (if o is Some audio then Speech audio else NoSpeech)
                        s = Some p
                      /\ outbox p.1 = outbox s ++ [single_answer r o]
                      /\ at_end p.2 = true /\ tasks p.1 = tasks s
                      /\ tts_queue p.1 = r' :: q
                      /\ is_processing_tts p.1 = true)
      as (p & Hr & Ho & He & Ht & Hq1 & Hf1)
      by (destruct o; eexists; (split; [reflexivity|]); now repeat split).
    rewrite (run_resume _ _ _ _ _ _ Hk Hr).
    set (s1 := set_tasks _ _).
    assert (Hk1 : tasks s1 !! k = Some p.2)
      by (subst s1; cbn; rewrite Ht; apply (lookup_resumed _ _ _ _ Hk)).
    assert (Hr1 : resume p.2 Continue s1 = Some (back_to_while s1))
      by (destruct p.2; try discriminate; reflexivity).
    rewrite (run_resume _ _ _ _ _ _ Hk1 Hr1).
    unfold back_to_while.
    replace (tts_queue s1) with (r' :: q)
      by (subst s1; cbn; now rewrite Hq1).
    cbn [while_loop].
    unfold cancelled.
    cbn [is_processing_tts current_tts_id set_processing set_tts_queue].
    replace (is_processing_tts s1) with true
      by (subst s1; cbn; now rewrite Hf1).
    rewrite (py_eq_plain _ Hid), Hstream. cbn [negb orb fst snd].
    set (s2 := set_tasks _ _).
    destruct (IH r' os s2) as (s' & Hrun & Hout & Hend & Hq' & Hf' & Hid');
      try assumption; try reflexivity.
    { subst s2. cbn. apply list_lookup_insert_eq.
      eapply lookup_lt_Some, Hk1. }
    exists s'. split; [exact Hrun|]. rewrite Hout.
    repeat split; try assumption.
    subst s2 s1. cbn. rewrite Ho, <- app_assoc. reflexivity.
Qed.

(** Three requests, the executor failing on the second. *)
Lemma queue_is_served_in_order_witness :
  let s := state_after three_single_requests in
  let os := [Some (lit "UklGRg=="); None; Some (lit "UklGRg==")] in
  exists s',
    run s (concat (map (single_schedule 0) os)) = Some s'
    /\ map msg_command (outbox s')
       = map msg_command (outbox s)
         ++ [lit "speech_generated"; lit "speech_error";
             lit "speech_generated"]
    /\ tts_queue s' = [].
Proof.
  intros s os.
  destruct (queue_is_served_in_order 0 (tts_queue s)
              {| req_websocket := 1; req_text := jstr "First request.";
                 req_message_id := JNull; req_streaming := JBool false |}
              os s)
    as (s' & Hrun & Hout & _ & Hq & _);
    try (vm_compute; reflexivity).
  exists s'. split; [exact Hrun|]. split; [|exact Hq].
  rewrite Hout, map_app. reflexivity.
Defined.

(** ** The minimal service answers every message *)

(** X8.  The minimal service answers every message, whatever it holds,
    with exactly one event to the connection it came from, and changes
    nothing else: text that is not JSON, JSON that is not an object and a
    payload that is not an object included, since [handle_client] turns the
    exception of the handler into an [error] event.  No exception leaves
    the turn. *)
Theorem minimal_service_answers_exactly_once (repr : json -> str)
    (ws : conn) (message : inbound) (s : service) :
  exists command payload,
    Minimal.on_message repr ws message s
    = (Val tt, set_outbox (outbox s ++ [sent ws command payload]) s).
Proof.
  destruct message as [msg|data]; [do 2 eexists; reflexivity|].
  unfold Minimal.on_message, Minimal.handle_websocket_message, json_loads,
    try_except, send_response, modify, raise, mbind, M_bind, mret, M_ret.
  destruct data as [|b|n|t|l|items];
    try (do 2 eexists; reflexivity).
  cbn [dict_get]. unfold mret, M_ret. cbn [fst snd].
  repeat match goal with
  | |- context [if is_command ?c ?n then _ else _] =>
      destruct (is_command c n)
  end;
  try (do 2 eexists; reflexivity);
  destruct (default (JObj []) (assoc (lit "payload") items));
    do 2 eexists; reflexivity.
Qed.

(** ** Broadcasts *)








(** ** The acoustic modem *)

Lemma range_count (k n step : nat) :
  0 < step -> (k < (n + step - 1) / step <-> k * step < n).
Proof.
  intros Hstep. split; intros H.
  - destruct (Nat.lt_ge_cases (k * step) n) as [Hlt|Hge]; [exact Hlt|].
    assert ((n + step - 1) / step < S k); [|lia].
    apply Nat.Div0.div_lt_upper_bound. nia.
  - apply (Nat.div_le_lower_bound _ _ (S k)); [lia | nia].
Qed.

Lemma concat_chunks {A} (size : nat) (text : list A) (k : nat) :
  concat (map (fun i => take size (drop i text))
            (map (fun j => j * size) (seq 0 k)))
  = take (k * size) text.
Proof.
  induction k as [|k IH]; [reflexivity|].
  rewrite seq_S, !map_app, concat_app, IH. cbn [map concat Nat.add].
  rewrite app_nil_r, take_take_drop. f_equal. lia.
Qed.

(** X11.  With a positive [max_payload_size], the chunks [_send_ggwave]
    cuts a text into are the text again when put end to end, in order; no
    chunk is empty and none is longer than [max_payload_size].  So an empty
    text gives no chunk at all. *)
Theorem chunks_partition_text {A} (size : nat) (text : list A) :
  0 < size ->
  exists cs,
    Ggwave.chunks size text = Some cs
    /\ concat cs = text
    /\ Forall (fun c => 0 < length c <= size) cs
    /\ (text = [] -> cs = []).
Proof.
  intros Hsize. unfold Ggwave.chunks, Ggwave.range_step.
  destruct (size =? 0) eqn:E; [apply Nat.eqb_eq in E; lia|].
  eexists. split; [reflexivity|]. split; [|split].
  - rewrite concat_chunks. apply take_ge.
    set (k := (length text + size - 1) / size).
    destruct (Nat.lt_ge_cases (k * size) (length text)) as [Hlt|Hge];
      [|exact Hge].
    apply (range_count k (length text) size Hsize) in Hlt. lia.
  - apply Forall_forall. intros c Hc.
    apply list_elem_of_fmap in Hc as (i & -> & Hi).
    apply list_elem_of_fmap in Hi as (j & -> & Hj).
    apply elem_of_seq in Hj as [_ Hj]. cbn in Hj.
    apply (range_count j (length text) size Hsize) in Hj.
    rewrite length_take, length_drop. lia.
  - intros ->. cbn [length Nat.add].
    rewrite Nat.div_small by lia. reflexivity.
Qed.

(** The thirteen characters of a greeting in chunks of five. *)
Lemma chunks_partition_text_witness :
  exists cs,
    Ggwave.chunks 5 (lit "Hello, world!") = Some cs
    /\ concat cs = lit "Hello, world!"
    /\ Forall (fun c => 0 < length c <= 5) cs
    /\ (lit "Hello, world!" = [] -> cs = []).
Proof. apply (chunks_partition_text 5 (lit "Hello, world!")). lia. Defined.


(** ** Audio capture *)

Section Captured.

Import Capture.
Variable c : Capture.config.

Lemma process_speech_buffer_queue b :
  length (audio_queue b) <= 3 ->
  length (audio_queue (process_speech_buffer c b).1) <= 3.
Proof.
  intros Hb. unfold process_speech_buffer.
  destruct (min_speech_chunks c <=? _)%nat; [|exact Hb].
  destruct (_ || _); [|exact Hb].
  destruct (length (audio_queue b) <? 3)%nat eqn:E; [|exact Hb].
  apply Nat.ltb_lt in E.
  destruct (audio_queue_maxsize <=? _)%nat; [exact Hb|].
  cbn. rewrite length_app. cbn. lia.
Qed.

Lemma run_queue_bound events : forall b,
  length (audio_queue b) <= 3 ->
  length (audio_queue (run c b events).1) <= 3.
Proof.
  induction events as [|e events IH]; intros b Hb; cbn [run]; [exact Hb|].
  destruct (step c b e) as [b' u] eqn:Hstep.
  assert (Hb' : length (audio_queue b') <= 3).
  { replace b' with (step c b e).1 by now rewrite Hstep.
    destruct e as [data [| |]|]; cbn; try exact Hb.
    - now apply process_speech_buffer_queue.
    - destruct (audio_queue b); cbn in *; lia. }
  specialize (IH b' Hb'). destruct (run c b' events) as [b'' us]. exact IH.
Qed.

Lemma process_speech_buffer_cases b :
  (speech_buffer (process_speech_buffer c b).1 = speech_buffer b
   /\ (process_speech_buffer c b).2 = None)
  \/ (speech_buffer (process_speech_buffer c b).1 = []
      /\ ((process_speech_buffer c b).2 = None
          \/ exists x, (process_speech_buffer c b).2 = Some x
                       /\ payload x = concat (speech_buffer b))).
Proof.
  unfold process_speech_buffer.
  destruct (min_speech_chunks c <=? _)%nat; [|now left].
  destruct (_ || _); [|now left].
  right.
  destruct (length (audio_queue b) <? 3)%nat;
    [destruct (audio_queue_maxsize <=? _)%nat|];
    (split; [reflexivity|]); [now left | right | now left].
  eexists. split; reflexivity.
Qed.

Lemma run_keeps_order events : forall b,
  concat (map payload (run c b events).2)
    ++ concat (speech_buffer (run c b events).1)
  `sublist_of` concat (speech_buffer b) ++ speech_data events.
Proof.
  induction events as [|e events IH]; intros b; cbn [run].
  - cbn. now rewrite app_nil_r.
  - destruct (step c b e) as [b' u] eqn:Hstep.
    specialize (IH b'). destruct (run c b' events) as [b'' us].
    cbn [fst snd] in *.
    destruct e as [data [| |]|]; cbn [step observe speech_data] in *.
    + injection Hstep as <- <-. cbn [speech_buffer option_list app] in *.
      rewrite concat_app, <- app_assoc in IH. cbn [concat] in IH.
      now rewrite app_nil_r in IH.
    + match type of Hstep with process_speech_buffer c ?b1 = _ =>
        destruct (process_speech_buffer_cases b1)
          as [[Hb Hu] | [Hb [Hu | (x & Hu & Hx)]]];
        rewrite Hstep in Hb, Hu; cbn [fst snd speech_buffer] in Hb, Hu
      end; subst u; cbn.
      * now rewrite Hb in IH.
      * rewrite Hb in IH. now apply sublist_inserts_l.
      * rewrite Hb in IH. cbn in Hx |- *. rewrite Hx, <- app_assoc.
        now apply sublist_app.
    + injection Hstep as <- <-. exact IH.
    + injection Hstep as <- <-. exact IH.
Qed.

End Captured.

(** X13.  The capture thread never fills [audio_queue]: it adds an
    utterance only while the queue holds fewer than three, so from a queue
    of at most three the queue holds at most three after any sequence of
    frames and reads, which is below the [maxsize] of 5.  The handler of
    [queue.Full] in [_process_speech_buffer] is never entered. *)
Theorem capture_queue_stays_short (c : Capture.config)
    (events : list Capture.event) (b : Capture.buffer) :
  length (Capture.audio_queue b) <= 3 ->
  length (Capture.audio_queue (Capture.run c b events).1) <= 3
  /\ 3 < Capture.audio_queue_maxsize.
Proof.
  intros Hb. split; [now apply run_queue_bound|].
  unfold Capture.audio_queue_maxsize. lia.
Qed.

(** Five utterances with no read in between: three are queued. *)
Lemma capture_queue_stays_short_witness :
  length (Capture.audio_queue
            (Capture.run Capture.default_config Capture.initial
               (utterances_unread 5)).1) <= 3
  /\ 3 < Capture.audio_queue_maxsize.
Proof.
  apply (capture_queue_stays_short Capture.default_config
           (utterances_unread 5) Capture.initial).
  cbn. lia.
Defined.

(** X14.  The capture thread neither reorders nor repeats audio: the
    utterances handed to the recognition queue, one after the other and
    followed by what is still in the speech buffer, are what remains of
    the audio of the speech frames (after the initial buffer) when some
    utterances are left out.  Frames the classifier calls silence, or
    fails on, never get into an utterance. *)
Theorem utterances_keep_frame_order (c : Capture.config)
    (events : list Capture.event) (b : Capture.buffer) :
  concat (map Capture.payload (Capture.run c b events).2)
    ++ concat (Capture.speech_buffer (Capture.run c b events).1)
  `sublist_of` concat (Capture.speech_buffer b) ++ speech_data events.
Proof. apply run_keeps_order. Qed.

(** ** The process environment *)

Lemma set_default_lookup name value env k :
  Startup.set_default name value env !! k
  = if bool_decide (k = name) && Startup.unset name env
    then Some (lit value) else env !! k.
Proof.
  unfold Startup.set_default.
  destruct (Startup.unset name env); [|now rewrite andb_false_r].
  rewrite andb_true_r. destruct (decide (k = name)) as [->|Hne].
  - rewrite bool_decide_eq_true_2 by reflexivity. apply lookup_insert_eq.
  - rewrite bool_decide_eq_false_2 by exact Hne.
    apply lookup_insert_ne. congruence.
Qed.

Lemma set_default_set name value env :
  Startup.unset name (Startup.set_default name value env) = false
  \/ lit value = [].
Proof.
  unfold Startup.unset at 1. rewrite set_default_lookup.
  rewrite bool_decide_eq_true_2 by reflexivity. cbn [andb].
  destruct (Startup.unset name env) eqn:E.
  - destruct (lit value); [now right | now left].
  - left. unfold Startup.unset in E.
    destruct (env !! name) as [[|? ?]|]; congruence.
Qed.

Lemma set_default_unset_ne name value env k :
  k <> name ->
  Startup.unset k (Startup.set_default name value env) = Startup.unset k env.
Proof.
  intros Hne. unfold Startup.unset. rewrite set_default_lookup.
  now rewrite bool_decide_eq_false_2 by exact Hne.
Qed.

Lemma unset_ext k (env env' : gmap string str) :
  env' !! k = env !! k -> Startup.unset k env' = Startup.unset k env.
Proof.
  intros H. unfold Startup.unset.
  change (@lookup string (list char) _ _ k env'
          = @lookup string (list char) _ _ k env) in H.
  now rewrite H.
Qed.

Lemma set_default_fixed name value env :
  Startup.unset name env = false ->
  Startup.set_default name value env = env.
Proof. intros H. unfold Startup.set_default. now rewrite H. Qed.

(** X15.  [setup_environment] leaves alone what the operator set: a
    variable other than [CUDA_VISIBLE_DEVICES] keeps its value, unless it
    is one of [WHISPER_MODEL], [TTS_MODEL] and [WEBSOCKET_PORT] and is
    unset or empty; after the call these three are set and not empty. *)
Theorem setup_environment_respects_settings (t : Startup.torch)
    (env : gmap string str) (name : string) :
  name <> "CUDA_VISIBLE_DEVICES" ->
  (name ∈ defaulted -> Startup.unset name env = false) ->
  Startup.setup_environment t env !! name = env !! name
  /\ Forall (fun k => Startup.unset k (Startup.setup_environment t env)
                      = false) defaulted.
Proof.
  intros Hcuda Hset. split.
  - assert (H : forall value k env',
              env' !! name = env !! name ->
              (k = name -> name ∈ defaulted) ->
              Startup.set_default k value env' !! name = env !! name).
    { intros value k env' He Hk. rewrite set_default_lookup.
      destruct (decide (name = k)) as [->|Hne].
      - rewrite (unset_ext _ _ _ He), (Hset (Hk eq_refl)), andb_false_r.
        exact He.
      - now rewrite bool_decide_eq_false_2 by exact Hne. }
    unfold Startup.setup_environment.
    assert (Hthree : Startup.set_default "WEBSOCKET_PORT" "8765"
                       (Startup.set_default "TTS_MODEL"
                          "tts_models/en/jenny/jenny"
                          (Startup.set_default "WHISPER_MODEL" "base" env))
                     !! name = env !! name).
    { repeat apply H; try reflexivity; intros <-; unfold defaulted;
        rewrite !elem_of_cons; auto. }
    destruct t; try exact Hthree.
    rewrite lookup_insert_ne by congruence. exact Hthree.
  - assert (H : forall env',
              Forall (fun k => Startup.unset k env' = false) defaulted ->
              Forall (fun k => Startup.unset k
                                 (<["CUDA_VISIBLE_DEVICES" := lit "0"]> env')
                               = false) defaulted).
    { intros env' HF. eapply Forall_impl; [exact HF|].
      intros k Hk. cbn beta in Hk |- *. unfold Startup.unset in Hk |- *.
      destruct (decide (k = "CUDA_VISIBLE_DEVICES")) as [->|Hne].
      - now rewrite lookup_insert_eq.
      - rewrite lookup_insert_ne by congruence. exact Hk. }
    assert (Hthree : Forall
              (fun k => Startup.unset k
                 (Startup.set_default "WEBSOCKET_PORT" "8765"
                    (Startup.set_default "TTS_MODEL"
                       "tts_models/en/jenny/jenny"
                       (Startup.set_default "WHISPER_MODEL" "base" env)))
               = false) defaulted).
    { repeat constructor.
      - rewrite !set_default_unset_ne by discriminate.
        now destruct (set_default_set "WHISPER_MODEL" "base" env).
      - rewrite set_default_unset_ne by discriminate.
        now destruct (set_default_set "TTS_MODEL" "tts_models/en/jenny/jenny"
                        (Startup.set_default "WHISPER_MODEL" "base" env)).
      - now destruct (set_default_set "WEBSOCKET_PORT" "8765"
                        (Startup.set_default "TTS_MODEL"
                           "tts_models/en/jenny/jenny"
                           (Startup.set_default "WHISPER_MODEL" "base"
                              env))). }
    unfold Startup.setup_environment. destruct t; auto.
Qed.

(** The model the operator chose is kept; the empty port gets the
    default. *)
Lemma setup_environment_respects_settings_witness :
  Startup.setup_environment Startup.CudaAvailable operator_env
    !! "WHISPER_MODEL" = Some (lit "small")
  /\ Startup.setup_environment Startup.CudaAvailable operator_env
       !! "WEBSOCKET_PORT" = Some (lit "8765").
Proof.
  destruct (setup_environment_respects_settings Startup.CudaAvailable
              operator_env "WHISPER_MODEL") as [H _].
  - discriminate.
  - intros _. vm_compute. reflexivity.
  - split; [rewrite H|]; vm_compute; reflexivity.
Defined.

(** X16.  [setup_environment] can be run again without effect: a second
    call, with the same finding about CUDA, leaves the environment of the
    first. *)
Theorem setup_environment_idempotent (t : Startup.torch)
    (env : gmap string str) :
  Startup.setup_environment t (Startup.setup_environment t env)
  = Startup.setup_environment t env.
Proof.
  apply map_eq. intros k.
  assert (Hset : Forall (fun n => Startup.unset n
                                    (Startup.setup_environment t env)
                                  = false) defaulted).
  { unfold Startup.setup_environment.
    assert (H3 : Forall
              (fun n => Startup.unset n
                 (Startup.set_default "WEBSOCKET_PORT" "8765"
                    (Startup.set_default "TTS_MODEL"
                       "tts_models/en/jenny/jenny"
                       (Startup.set_default "WHISPER_MODEL" "base" env)))
               = false) defaulted).
    { repeat constructor.
      - rewrite !set_default_unset_ne by discriminate.
        now destruct (set_default_set "WHISPER_MODEL" "base" env).
      - rewrite set_default_unset_ne by discriminate.
        now destruct (set_default_set "TTS_MODEL" "tts_models/en/jenny/jenny"
                        (Startup.set_default "WHISPER_MODEL" "base" env)).
      - now destruct (set_default_set "WEBSOCKET_PORT" "8765"
                        (Startup.set_default "TTS_MODEL"
                           "tts_models/en/jenny/jenny"
                           (Startup.set_default "WHISPER_MODEL" "base"
                              env))). }
    destruct t; try exact H3.
    eapply Forall_impl; [exact H3|].
    intros n Hn. cbn beta in Hn |- *. unfold Startup.unset in Hn |- *.
    destruct (decide (n = "CUDA_VISIBLE_DEVICES")) as [->|Hne].
    - now rewrite lookup_insert_eq.
    - rewrite lookup_insert_ne by congruence. exact Hn. }
  apply Forall_cons in Hset as [H1 Hset].
  apply Forall_cons in Hset as [H2 Hset].
  apply Forall_cons in Hset as [H3 _].
  set (env1 := Startup.setup_environment t env) in *.
  unfold Startup.setup_environment at 1.
  rewrite (set_default_fixed "WHISPER_MODEL" _ env1 H1).
  rewrite (set_default_fixed "TTS_MODEL" _ env1 H2).
  rewrite (set_default_fixed "WEBSOCKET_PORT" _ env1 H3).
  destruct t; try reflexivity.
  subst env1. unfold Startup.setup_environment.
  now rewrite insert_insert_eq.
Qed.

(** ** Sentence decomposition *)

Lemma sub_without_start d r repl :
  starts_with d r ->
  forall s prev, Forall (fun c => c <> d) s -> Re.sub_scan r repl prev 0 s = s.
Proof.
  intros [Hnil Hcons] s. induction s as [|c s IH]; intros prev Hs;
    cbn [Re.sub_scan].
  - now rewrite Hnil.
  - apply Forall_cons in Hs as [Hc Hs].
    rewrite (Hcons prev c s Hc). f_equal. now apply IH.
Qed.

Ltac starts_with_tac r :=
  let v := eval vm_compute in r in
  change r with v;
  split; [reflexivity|];
  intros prev c t Hc; apply N.eqb_neq in Hc;
  unfold Sentences.thinking_mark in Hc;
  unfold Re.match_here; cbn -[N.eqb]; rewrite Hc; reflexivity.

Lemma re_thinking_start :
  starts_with Sentences.thinking_mark Sentences.re_thinking.
Proof. starts_with_tac Sentences.re_thinking. Qed.

Lemma re_thought_process_start :
  starts_with Sentences.thinking_mark Sentences.re_thought_process.
Proof. starts_with_tac Sentences.re_thought_process. Qed.

Lemma re_bold_start : starts_with 42%N Sentences.re_bold.
Proof. starts_with_tac Sentences.re_bold. Qed.

Lemma re_italic_start : starts_with 42%N Sentences.re_italic.
Proof. starts_with_tac Sentences.re_italic. Qed.

Lemma re_code_start : starts_with 96%N Sentences.re_code.
Proof. starts_with_tac Sentences.re_code. Qed.

Lemma re_header_start : starts_with 35%N Sentences.re_header.
Proof. starts_with_tac Sentences.re_header. Qed.

Lemma plain_without d text :
  d ∈ markup -> plain text = true -> Forall (fun c => c <> d) text.
Proof.
  intros Hd Hp. apply Forall_forall. intros c Hc ->.
  unfold plain in Hp. rewrite forallb_forall in Hp.
  apply list_elem_of_In in Hc. specialize (Hp d Hc).
  apply negb_true_iff in Hp.
  assert (existsb (N.eqb d) markup = true); [|congruence].
  apply existsb_exists. exists d. split; [|apply N.eqb_refl].
  now apply list_elem_of_In.
Qed.

Ltac plain_tac Hp :=
  apply plain_without; [|exact Hp];
  unfold markup; rewrite !elem_of_cons; auto 7.

(** X17.  A text with no thought mark, star, backquote or hash goes
    through the six substitutions of [_split_into_sentences] unchanged:
    what is cut into sentences is then the text itself, stripped. *)
Theorem clean_keeps_plain_text (text : str) :
  plain text = true -> Sentences.clean text = text.
Proof.
  intros Hp. unfold Sentences.clean, Re.sub. cbn zeta.
  rewrite (sub_without_start _ _ _ re_thinking_start)
    by plain_tac Hp.
  rewrite (sub_without_start _ _ _ re_thought_process_start)
    by plain_tac Hp.
  rewrite (sub_without_start _ _ _ re_bold_start)
    by plain_tac Hp.
  rewrite (sub_without_start _ _ _ re_italic_start)
    by plain_tac Hp.
  rewrite (sub_without_start _ _ _ re_code_start)
    by plain_tac Hp.
  apply (sub_without_start _ _ _ re_header_start).
  plain_tac Hp.
Qed.

Lemma clean_keeps_plain_text_witness :
  Sentences.clean (lit "One. Two. Three.") = lit "One. Two. Three.".
Proof.
  apply (clean_keeps_plain_text (lit "One. Two. Three.")).
  vm_compute. reflexivity.
Defined.

(** *** White space *)

Lemma blanks_le s : blanks s <= length s.
Proof.
  induction s as [|c s IH]; [reflexivity|]. cbn.
  destruct (isspace c); cbn; lia.
Qed.

Lemma nonblank_app s t : nonblank (s ++ t) = nonblank s ++ nonblank t.
Proof. apply List.filter_app. Qed.

Lemma nonblank_lstrip s : nonblank (lstrip s) = nonblank s.
Proof.
  induction s as [|c s IH]; [reflexivity|]. cbn.
  destruct (isspace c) eqn:E; [exact IH|]. cbn. now rewrite E.
Qed.

Lemma nonblank_strip s : nonblank (strip s) = nonblank s.
Proof.
  unfold strip, rstrip, nonblank.
  rewrite filter_rev. fold (nonblank (lstrip (rev (lstrip s)))).
  rewrite nonblank_lstrip. unfold nonblank.
  rewrite filter_rev, rev_involutive. apply nonblank_lstrip.
Qed.

Lemma lstrip_solid s : solid s = true -> lstrip s = s.
Proof.
  destruct s as [|c s]; [discriminate|]. cbn.
  now intros ->%negb_true_iff.
Qed.

Lemma lstrip_cases s : lstrip s = [] \/ solid (lstrip s) = true.
Proof.
  induction s as [|c s IH]; [now left|]. cbn.
  destruct (isspace c) eqn:E; [exact IH|]. right. cbn. now rewrite E.
Qed.

Lemma lstrip_snoc s c :
  isspace c = false -> lstrip (s ++ [c]) = lstrip s ++ [c].
Proof.
  intros Hc. induction s as [|d s IH]; cbn; [now rewrite Hc|].
  now destruct (isspace d).
Qed.

Lemma solid_app s t : solid s = true -> solid (s ++ t) = true.
Proof. now destruct s. Qed.

(** What [strip] leaves, if anything, starts and ends with a character
    other than white space. *)
Lemma strip_firm s :
  strip s <> [] -> solid (strip s) = true /\ solid (rev (strip s)) = true.
Proof.
  unfold strip, rstrip. intros Hne. rewrite rev_involutive.
  destruct (lstrip_cases (rev (lstrip s))) as [H|H];
    [now rewrite H in Hne|].
  split; [|exact H].
  destruct (lstrip_cases s) as [Hs|Hs]; [now rewrite Hs in H, Hne|].
  destruct (lstrip s) as [|c u]; [discriminate|]. cbn in Hs.
  apply negb_true_iff in Hs. cbn [rev].
  rewrite (lstrip_snoc _ _ Hs), rev_app_distr. cbn. now rewrite Hs.
Qed.

Lemma solid_strip s : solid s = true -> strip s <> [].
Proof.
  intros Hs. unfold strip, rstrip. rewrite (lstrip_solid s Hs).
  destruct s as [|c s]; [discriminate|]. cbn in Hs.
  apply negb_true_iff in Hs. cbn [rev]. rewrite (lstrip_snoc _ _ Hs).
  rewrite rev_app_distr. discriminate.
Qed.

Lemma solid_drop_blanks s :
  solid (rev s) = true -> solid (drop (blanks s) s) = true.
Proof.
  induction s as [|c s IH]; [discriminate|]. cbn [rev blanks].
  destruct (isspace c) eqn:E; [|intros _; cbn; now rewrite E].
  cbn [drop]. intros H. apply IH.
  destruct (rev s) as [|d u]; [cbn in H; now rewrite E in H | exact H].
Qed.

Lemma solid_rev_tail c s :
  solid (rev (c :: s)) = true -> s = [] \/ solid (rev s) = true.
Proof.
  destruct s as [|d s]; [now left|]. intros H. right. cbn [rev] in *.
  destruct (rev s ++ [d]) eqn:E; [|exact H].
  now apply app_eq_nil in E as [_ ?].
Qed.

(** *** The patterns that split *)

Lemma rep_space_greedy {A} (h : str -> A) s : forall lo prev,
  Re.rep_match Re.Space true lo None prev s (fun _ t => Some (h t))
  = if (lo <=? blanks s)%nat then Some (h (drop (blanks s) s)) else None.
Proof.
  induction s as [|c s IH]; intros lo prev; cbn [Re.rep_match blanks].
  - now destruct lo.
  - cbn [Re.cls_match fmap option_fmap option_map].
    destruct (isspace c) eqn:E.
    + rewrite IH. cbn [drop].
      destruct lo as [|lo]; cbn [Nat.pred Nat.leb Re.or_else];
        [reflexivity | destruct (lo <=? blanks s)%nat; reflexivity].
    + now destruct lo.
Qed.

Lemma lookbehind_blanks k : takes_blanks
  (Re.sequence [Re.LookBehind k; Re.plus Re.Space]).
Proof.
  intros prev s n g. unfold Re.match_here, Re.plus.
  cbn [Re.sequence fold_right Re.rmatch].
  destruct prev as [c|]; [|discriminate].
  destruct (Re.cls_match k c); [|discriminate].
  rewrite (rep_space_greedy (fun t => (length s - length t, None))).
  destruct (1 <=? blanks s)%nat; [|discriminate].
  intros [= <- _]. rewrite length_drop. pose proof (blanks_le s). lia.
Qed.

Lemma split_scan_nonblank r (Hr : takes_blanks r) s : forall prev skip cur,
  skip <= blanks s ->
  nonblank (concat (Re.split_scan r prev skip cur s))
  = nonblank cur ++ nonblank s.
Proof.
  induction s as [|c s IH]; intros prev skip cur Hskip;
    cbn [Re.split_scan].
  - cbn [concat]. rewrite app_nil_r.
    change (nonblank []) with (@nil char). now rewrite app_nil_r.
  - assert (Hblank : 0 < blanks (c :: s) ->
                     isspace c = true /\ blanks (c :: s) = S (blanks s)
                     /\ nonblank (c :: s) = nonblank s).
    { cbn. destruct (isspace c); [now repeat split | lia]. }
    destruct skip as [|n].
    + destruct (Re.match_here r prev (c :: s)) as [[[|n] g]|] eqn:Hm.
      * rewrite IH by lia. rewrite nonblank_app, <- app_assoc.
        f_equal. symmetry. apply (nonblank_app [c] s).
      * apply Hr in Hm. destruct Hblank as (_ & Hb & ->); [lia|].
        cbn [concat]. rewrite nonblank_app, IH by lia. reflexivity.
      * rewrite IH by lia. rewrite nonblank_app, <- app_assoc.
        f_equal. symmetry. apply (nonblank_app [c] s).
    + destruct Hblank as (_ & Hb & ->); [lia|]. apply IH. lia.
Qed.

Lemma split_scan_solid r (Hr : takes_blanks r) s : forall prev skip cur,
  solid (cur ++ drop skip s) = true ->
  s = [] \/ solid (rev s) = true ->
  Forall (fun p => solid p = true) (Re.split_scan r prev skip cur s).
Proof.
  induction s as [|c s IH]; intros prev skip cur Hcur Hend;
    cbn [Re.split_scan].
  - rewrite drop_nil, app_nil_r in Hcur. now repeat constructor.
  - destruct Hend as [?|Hend]; [discriminate|].
    pose proof (solid_rev_tail c s Hend) as Htail.
    destruct skip as [|n]; [|now apply IH].
    cbn [drop] in Hcur.
    assert (Hnext : Forall (fun p => solid p = true)
                      (Re.split_scan r (Some c) 0 (cur ++ [c]) s))
      by (apply IH; [now rewrite <- app_assoc | exact Htail]).
    destruct (Re.match_here r prev (c :: s)) as [[[|n] g]|] eqn:Hm;
      try exact Hnext.
    apply Hr in Hm. pose proof (solid_drop_blanks _ Hend) as Hd.
    rewrite <- Hm in Hd. cbn [drop] in Hd.
    cbn [blanks] in Hm. destruct (isspace c) eqn:E; [|discriminate].
    constructor; [|now apply IH].
    destruct cur as [|d cur]; [cbn in Hcur; now rewrite E in Hcur|].
    exact Hcur.
Qed.

(** *** The steps of the decomposition *)

Lemma emit_nonblank max current :
  nonblank (concat (Sentences.emit max current)) = nonblank current.
Proof.
  unfold Sentences.emit. destruct (max <? length current)%nat.
  - unfold Re.split, Sentences.re_comma.
    rewrite (split_scan_nonblank _ (lookbehind_blanks _)) by lia.
    reflexivity.
  - cbn. now rewrite app_nil_r.
Qed.

Lemma emit_solid max current :
  solid current = true -> solid (rev current) = true ->
  Forall (fun p => solid p = true) (Sentences.emit max current).
Proof.
  intros H1 H2. unfold Sentences.emit.
  destruct (max <? length current)%nat; [|now repeat constructor].
  unfold Re.split, Sentences.re_comma.
  apply (split_scan_solid _ (lookbehind_blanks _)); [exact H1 | now right].
Qed.

Lemma merge_nonblank max : forall l,
  nonblank (concat (Sentences.merge max l)) = nonblank (concat l).
Proof.
  assert (H : forall n l, length l <= n ->
              nonblank (concat (Sentences.merge max l))
              = nonblank (concat l)); [|now intros l; apply (H (length l))].
  induction n as [|n IH]; intros [|a l] Hlen; try reflexivity;
    cbn in Hlen; [lia|].
  cbn [Sentences.merge concat].
  destruct (length a <? 20)%nat.
  - destruct l as [|b l].
    + rewrite emit_nonblank. cbn. now rewrite app_nil_r.
    + rewrite concat_app, nonblank_app, emit_nonblank, IH
        by (cbn in Hlen; lia).
      cbn [concat]. rewrite !nonblank_app, <- app_assoc. reflexivity.
  - rewrite concat_app, !nonblank_app, emit_nonblank, IH by lia.
    reflexivity.
Qed.

Lemma merge_solid max : forall l,
  Forall (fun s => solid s = true /\ solid (rev s) = true) l ->
  Forall (fun p => solid p = true) (Sentences.merge max l).
Proof.
  assert (H : forall n l, length l <= n ->
              Forall (fun s => solid s = true /\ solid (rev s) = true) l ->
              Forall (fun p => solid p = true) (Sentences.merge max l));
    [|now intros l; apply (H (length l))].
  induction n as [|n IH]; intros [|a l] Hlen Hl; try constructor;
    cbn in Hlen; [lia|].
  apply Forall_cons in Hl as [[Ha1 Ha2] Hl].
  cbn [Sentences.merge].
  destruct (length a <? 20)%nat.
  - destruct l as [|b l]; [now apply emit_solid|].
    apply Forall_cons in Hl as [[Hb1 Hb2] Hl].
    apply Forall_app. split; [|apply IH; [cbn in Hlen; lia | exact Hl]].
    apply emit_solid; [now apply solid_app|].
    rewrite !rev_app_distr. now apply solid_app, solid_app.
  - apply Forall_app.
    split; [now apply emit_solid | apply IH; [lia | exact Hl]].
Qed.

Lemma keep_firm l :
  Forall (fun s => solid s = true /\ solid (rev s) = true)
    (Sentences.keep l).
Proof.
  apply Forall_forall. intros s Hs. unfold Sentences.keep in Hs.
  apply list_elem_of_omap in Hs as (x & _ & Hx). cbn zeta in Hx.
  destruct (negb (bool_decide (strip x = []))) eqn:E; [|discriminate].
  destruct (3 <? length (strip x))%nat; [|discriminate].
  injection Hx as <-. apply strip_firm.
  apply negb_true_iff, bool_decide_eq_false in E. exact E.
Qed.

Lemma keep_nonblank l :
  nonblank (concat (Sentences.keep l)) `sublist_of` nonblank (concat l).
Proof.
  induction l as [|s l IH]; [reflexivity|].
  unfold Sentences.keep in *. cbn [omap list_omap concat].
  rewrite nonblank_app.
  destruct (_ && _).
  - cbn [concat]. rewrite nonblank_app, nonblank_strip.
    now apply sublist_app.
  - now apply sublist_inserts_l.
Qed.

(** X18.  The merging loop loses nothing but white space: the characters
    other than white space of the sentences it returns, read one after the
    other, are those of the sentences it was given, in the same order,
    whatever [max_sentence_length] is and wherever long sentences are cut
    at commas. *)
Theorem merge_keeps_the_text (max_sentence_length : nat)
    (sentences : list str) :
  nonblank (concat (Sentences.merge max_sentence_length sentences))
  = nonblank (concat sentences).
Proof. apply merge_nonblank. Qed.

(** X19.  [_split_into_sentences] invents nothing and keeps the order: the
    characters other than white space of the sentences it returns, read
    one after the other, are what remains of those of the cleaned text
    when some are left out (those of the pieces of three characters or
    less). *)
Theorem sentences_come_from_the_text (max_sentence_length : nat)
    (text : str) :
  nonblank (concat (Sentences.split_into_sentences max_sentence_length text))
  `sublist_of` nonblank (Sentences.clean text).
Proof.
  unfold Sentences.split_into_sentences. rewrite merge_nonblank.
  etransitivity; [apply keep_nonblank|].
  unfold Re.split, Sentences.re_sentence_end.
  rewrite (split_scan_nonblank _ (lookbehind_blanks _)) by lia.
  cbn [nonblank List.filter app].
  fold (nonblank (strip (Sentences.clean text))).
  now rewrite nonblank_strip.
Qed.

Lemma sentences_solid max text :
  Forall (fun s => solid s = true)
    (Sentences.split_into_sentences max text).
Proof. apply merge_solid, keep_firm. Qed.

Lemma spoken_all (l : list str) :
  Forall (fun s => solid s = true) l ->
  spoken (enumerate l) = enumerate l.
Proof.
  intros Hsolid. unfold spoken. apply forallb_filter_id, forallb_forall.
  intros [i s] Hin. apply list_elem_of_In, elem_of_zip_r in Hin.
  rewrite Forall_forall in Hsolid. specialize (Hsolid s Hin).
  cbn. apply negb_true_iff, bool_decide_eq_false.
  now apply solid_strip.
Qed.

(** X20.  Every sentence [_split_into_sentences] returns starts with a
    character other than white space, so the test [if sentence.strip()] of
    the streaming handler never skips a sentence: the sentences sent to
    the executor are all the [total_sentences] announced, with the indices
    0, 1, 2, ... *)
Theorem every_sentence_is_spoken (max_sentence_length : nat) (text : str) :
  let sentences :=
    Sentences.split_into_sentences max_sentence_length text in
  Forall (fun s => solid s = true) sentences
  /\ spoken (enumerate sentences) = enumerate sentences
  /\ map fst (spoken (enumerate sentences)) = seq 0 (length sentences).
Proof.
  cbn zeta. split; [apply sentences_solid|].
  rewrite (spoken_all _ (sentences_solid max_sentence_length text)).
  split; [reflexivity|].
  unfold enumerate. apply fst_zip. rewrite length_seq. lia.
Qed.

(** ** A streaming request from end to end *)

Lemma delivered_all r total (todo : list (nat * str)) : forall audios,
  delivered r total todo (map Some audios)
  = zip_with (fun p audio => stream_chunk r total p.1 p.2 audio) todo audios.
Proof.
  unfold delivered.
  induction todo as [|p todo IH]; intros [|a audios]; try reflexivity.
  cbn. now rewrite <- IH.
Qed.

(** X21.  A streaming request taken by a new driver task, with audio for
    every sentence and no [stop_tts]: the connection gets
    [tts_stream_start], then one [tts_stream_chunk] for each sentence of
    [_split_into_sentences], with the indices 0, 1, 2, ... in order, then
    [tts_stream_complete]; the number of chunks is the [total_sentences]
    announced, and the requests behind it are still queued. *)
Theorem streaming_request_end_to_end (s : service) (k : nat) (r : request)
    (q : list request) (text : str) (audios : list str) :
  is_processing_tts s = false ->
  tasks s !! k = Some Created ->
  tts_queue s = r :: q ->
  truthy (req_streaming r) = true ->
  req_text r = JStr text ->
  plain_id (req_message_id r) = true ->
  let sentences :=
    Sentences.split_into_sentences (max_sentence_length (config s)) text in
  let total := length sentences in
  length audios = total ->
  exists s',
    run s (stream_schedule k audios) = Some s'
    /\ outbox s'
       = outbox s ++ [stream_start r total]
         ++ zip_with (fun p audio => stream_chunk r total p.1 p.2 audio)
              (enumerate sentences) audios
         ++ [stream_complete r total]
    /\ map fst (enumerate sentences) = seq 0 total
    /\ tasks s' !! k = Some (StreamEndSent r)
    /\ tts_queue s' = q.
Proof.
  intros Hidle Hk Hq Hstream Htext Hid sentences total Hlen.
  assert (Hspoken : spoken (enumerate sentences) = enumerate sentences)
    by apply spoken_all, sentences_solid.
  assert (Henum : length (enumerate sentences) = total)
    by (unfold enumerate; rewrite length_zip, length_seq; lia).
  set (s0 := set_processing true (req_message_id r) (set_tts_queue q
               (set_processing true (current_tts_id s) s))).
  assert (Hstart : resume Created Continue s
                   = Some (send (req_websocket r) "tts_stream_start"
                             [("total_sentences", jnat total);
                              ("text", req_text r);
                              ("message_id", req_message_id r)] s0,
                           StreamStartSent r total (enumerate sentences))).
  { cbn [resume]. unfold start_task, back_to_while. rewrite Hidle.
    rewrite bool_decide_eq_false_2 by (rewrite Hq; discriminate).
    cbn [tts_queue set_processing]. rewrite Hq. cbn [while_loop].
    unfold cancelled.
    cbn [is_processing_tts current_tts_id set_processing set_tts_queue].
    rewrite (py_eq_plain _ Hid), Hstream, Htext. reflexivity. }
  unfold stream_schedule. rewrite (run_resume _ _ _ _ _ _ Hk Hstart).
  cbn [fst snd].
  set (s1 := set_tasks _ _).
  assert (Hk1 : tasks s1 !! k
                = Some (StreamStartSent r total (enumerate sentences)))
    by (subst s1; cbn; apply (lookup_resumed _ _ _ _ Hk)).
  destruct (stream_loop_run k r total (enumerate sentences)
              (map Some audios) s1 _ Continue Hk1 eq_refl)
    as (s' & Hrun & Hout & Hend & Hq' & _).
  { unfold cancelled. subst s1 s0. cbn. now rewrite (py_eq_plain _ Hid). }
  { rewrite Hspoken, length_map. lia. }
  exists s'. split; [exact Hrun|]. rewrite Hout, Hq', Hspoken, delivered_all.
  split; [|split; [|split; [exact Hend | reflexivity]]].
  - subst s1 s0. cbn. rewrite <- app_assoc. reflexivity.
  - unfold enumerate. apply fst_zip. rewrite length_seq. lia.
Qed.

(** [One. Two. Three.] streamed on connection 1: two sentences, two
    chunks. *)
Lemma streaming_request_end_to_end_witness :
  exists s',
    run (state_after stream_enqueued)
      (stream_schedule 0 [lit "UklGRg=="; lit "UklGRg=="]) = Some s'
    /\ map msg_command (outbox s')
       = [lit "connected"; lit "tts_stream_start"; lit "tts_stream_chunk";
          lit "tts_stream_chunk"; lit "tts_stream_complete"].
Proof.
  destruct (streaming_request_end_to_end (state_after stream_enqueued) 0
              one_two_three [] (lit "One. Two. Three.")
              [lit "UklGRg=="; lit "UklGRg=="])
    as (s' & Hrun & Hout & _); try (vm_compute; reflexivity).
  exists s'. split; [exact Hrun|]. rewrite Hout.
  vm_compute. reflexivity.
Defined.
